(** * MRISynth: resampling grid construction and batch drivers

    A shallow embedding of three Python sources of the repository:

    - [transform.py]: [build_new_affine], the builder of the affine of the
      resampled grid (module [Transform]);
    - [compare_interpolation.py]: [process_streamlines_with_method], the
      batch densification driver (module [CompareInterpolation]), and
      [compare_metrics], the report on the metrics of the two methods
      (module [CompareMetrics]), [calculate_metrics_for_both_methods],
      [compare_interpolations] and [main] (module [Comparison]);
    - [main.py]: [process_and_save], the end-to-end pipeline (module [Main]).

    Python floats are modelled by exact real numbers extended with one
    non-finite value (what numpy produces on a division by zero); integers
    by [Z]; tuples, lists and 1-D arrays by lists; 2-D arrays by lists of
    rows; [os.environ] by a finite map from strings to strings; printing,
    file access and the calls into modules that are not part of these
    sources by an explicit trace of events. *)

From Stdlib Require Import Reals Lra ZArith String.
From stdpp Require Import base list strings gmap.

#[local] Unset Default Proof Using.
#[local] Open Scope R_scope.

(** ** Python: exceptions, results, call binding *)

Module Py.

(** The exceptions the modelled code can meet.  They are all subclasses
    of Python's [Exception]. *)
Inductive exn : Type :=
| TypeError (msg : string)
| ValueError (msg : string)
| ZeroDivisionError
| IndexError
| ImportError
| OtherError (name : string).

(** The result of running a piece of Python: a value, or a raised
    exception. *)
Inductive result (A : Type) : Type :=
| Returned (a : A)
| Raised (e : exn).
Arguments Returned {A} a.
Arguments Raised {A} e.

Definition bind {A B : Type} (m : result A) (k : A → result B) : result B :=
  match m with
  | Returned a => k a
  | Raised e => Raised e
  end.

Fixpoint mapM {A B : Type} (f : A → result B) (l : list A) : result (list B) :=
  match l with
  | [] => Returned []
  | x :: l' =>
      bind (f x) (fun y => bind (mapM f l') (fun ys => Returned (y :: ys)))
  end.

(** A parameter of a [def]: its name and whether it has a default. *)
Record param : Type := Param { pname : string; has_default : bool }.

(** The parameter list of a [def] without [*args], [**kwargs] or
    keyword-only parameters. *)
Definition signature : Type := list param.

Definition names (sig : signature) : list string := map pname sig.

(** How CPython binds the arguments of a call [f(p1, ..., pn, k1=..., ...)]
    to the parameters of [f]: a keyword that names no parameter, or one
    that a positional argument already filled, too many positional
    arguments, or a parameter without default left unfilled, is a
    [TypeError].  [npos] is the number of positional arguments and [kws]
    the keywords of the call, in order. *)
Fixpoint bind_keywords (sig : signature) (npos : nat) (kws : list string)
  : result unit :=
  match kws with
  | [] => Returned tt
  | k :: kws' =>
      if bool_decide (k ∈ names sig) then
        if bool_decide (k ∈ take npos (names sig)) then
          Raised (TypeError ("got multiple values for argument '" ++ k ++ "'"))
        else bind_keywords sig npos kws'
      else Raised (TypeError ("got an unexpected keyword argument '" ++ k ++ "'"))
  end.

Definition filled (npos : nat) (kws : list string) (i : nat) (p : param) : bool :=
  has_default p || (i <? npos)%nat || bool_decide (pname p ∈ kws).

Definition bind_arguments (sig : signature) (npos : nat) (kws : list string)
  : result unit :=
  bind (bind_keywords sig npos kws) (fun _ =>
  if (length sig <? npos)%nat then
    Raised (TypeError "too many positional arguments")
  else if forallb (fun ip => filled npos kws ip.1 ip.2) (imap pair sig) then
    Returned tt
  else Raised (TypeError "missing required positional argument")).

End Py.

Export Py.

(** [result] is a monad; stdpp's [x ← m; k] is its sequencing. *)
#[export] Instance result_ret : MRet result := @Returned.
#[export] Instance result_bind : MBind result := fun A B k m => Py.bind m k.

(** ** numpy: floats and arrays *)

Module Np.

(** A double: a real number (arithmetic is exact, rounding and overflow
    are not modelled) or a non-finite value, [inf] or [nan].  The inputs
    of the modelled code are finite, a non-finite value only comes out of
    a division by zero, and [+], [-], [*] and [sqrt] of a non-finite
    value are non-finite again. *)
Inductive float64 : Type :=
| Fin (r : R)
| NonFinite.

Definition fadd (x y : float64) : float64 :=
  match x, y with Fin a, Fin b => Fin (a + b) | _, _ => NonFinite end.

Definition fsub (x y : float64) : float64 :=
  match x, y with Fin a, Fin b => Fin (a - b) | _, _ => NonFinite end.

Definition fmul (x y : float64) : float64 :=
  match x, y with Fin a, Fin b => Fin (a * b) | _, _ => NonFinite end.

(** numpy does not raise on a division by zero: the quotient is [inf] or
    [nan] (and a warning is printed). *)
Definition fdiv (x y : float64) : float64 :=
  match x, y with
  | Fin a, Fin b => if Req_dec_T b 0 then NonFinite else Fin (a / b)
  | _, _ => NonFinite
  end.

Definition fsqrt (x : float64) : float64 :=
  match x with
  | Fin a => if Rlt_dec a 0 then NonFinite else Fin (sqrt a)
  | NonFinite => NonFinite
  end.

(** 1-D arrays are lists; 2-D arrays are lists of rows of one length. *)
Definition array1 : Type := list float64.
Definition array2 : Type := list array1.

(** [np.array] of a tuple of floats / of ints. *)
Definition array (l : list R) : array1 := map Fin l.
Definition array_int (l : list Z) : array1 := map (fun n => Fin (IZR n)) l.

Definition cols (M : array2) : nat := length (hd [] M).

Definition col (j : nat) (M : array2) : array1 :=
  map (fun row => nth j row (Fin 0)) M.

(** [M[:r, :c]] *)
Definition slice2 (r c : nat) (M : array2) : array2 := map (take c) (take r M).

(** [M ** 2], elementwise *)
Definition square (M : array2) : array2 := map (map (fun x => fmul x x)) M.

Definition sum (v : array1) : float64 := foldr fadd (Fin 0) v.

(** [np.sum(M, axis=0)]: the sums of the columns *)
Definition sum_axis0 (M : array2) : array1 :=
  map (fun j => sum (col j M)) (seq 0 (cols M)).

(** [np.sqrt], elementwise *)
Definition np_sqrt (v : array1) : array1 := map fsqrt v.

(** An elementwise binary operation on 1-D arrays, with numpy's
    broadcasting: the lengths agree, or one of them is 1. *)
Definition broadcast2 (f : float64 → float64 → float64) (xs ys : array1)
  : result array1 :=
  if (length xs =? length ys)%nat then Returned (zip_with f xs ys)
  else match xs, ys with
       | [x], _ => Returned (map (f x) ys)
       | _, [y] => Returned (map (fun x => f x y) xs)
       | _, _ => Raised (ValueError "operands could not be broadcast together")
       end.

(** [v - k] and [v / d] for a scalar on the right *)
Definition sub_scalar (v : array1) (k : float64) : array1 :=
  map (fun x => fsub x k) v.
Definition div_scalar (v : array1) (d : float64) : array1 :=
  map (fun x => fdiv x d) v.

(** [np.diag(v)]: the square matrix with [v] on its diagonal *)
Definition diag (v : array1) : array2 :=
  imap (fun i x => <[i := x]> (replicate (length v) (Fin 0))) v.

(** [np.eye(n)] *)
Definition eye (n : nat) : array2 := diag (replicate n (Fin 1)).

Definition dot (xs ys : array1) : float64 := sum (zip_with fmul xs ys).

(** [M @ v], a matrix times a vector *)
Definition matvec (M : array2) (v : array1) : result array1 :=
  if (cols M =? length v)%nat then Returned (map (fun row => dot row v) M)
  else Raised (ValueError "matmul: mismatch in core dimension").

(** [A @ B], a matrix times a matrix *)
Definition matmul (A B : array2) : result array2 :=
  if (cols A =? length B)%nat then
    Returned (map (fun row => map (fun j => dot row (col j B)) (seq 0 (cols B))) A)
  else Raised (ValueError "matmul: mismatch in core dimension").

(** [np.hstack([v, x])] for a 1-D array and a scalar *)
Definition hstack (v : array1) (x : float64) : array1 := v ++ [x].

(** Broadcasting of the right-hand side of a slice assignment to the
    shape of the slice. *)
Definition broadcast_to1 (n : nat) (v : array1) : result array1 :=
  if (length v =? n)%nat then Returned v
  else match v with
       | [x] => Returned (replicate n x)
       | _ => Raised (ValueError "could not broadcast input array")
       end.

Definition broadcast_to2 (r c : nat) (M : array2) : result array2 :=
  (rows ← mapM (broadcast_to1 c) M;
   if (length rows =? r)%nat then Returned rows
   else match rows with
        | [row] => Returned (replicate r row)
        | _ => Raised (ValueError "could not broadcast input array")
        end).

(** [A[:3, :3] = B] *)
Definition assign_block33 (A B : array2) : result array2 :=
  (B' ← broadcast_to2 3 3 B;
   Returned (zip_with (fun arow brow => brow ++ drop 3 arow) (take 3 A) B'
             ++ drop 3 A)).

(** [A[:3, 3] = t] *)
Definition assign_col3 (A : array2) (t : array1) : result array2 :=
  (t' ← broadcast_to1 3 t;
   Returned (zip_with (fun arow x => <[3%nat := x]> arow) (take 3 A) t'
             ++ drop 3 A)).

End Np.

(** ** transform.py *)

Module Transform.
Import Np.

(** [new_voxel_size]: a Python number, or a tuple of numbers. *)
Inductive voxel_size : Type :=
| Scalar (s : R)
| Tuple (l : list R).

(** The parameter list of [def build_new_affine]. *)
Definition build_new_affine_signature : Py.signature :=
  [ Param "old_affine" false; Param "old_shape" false;
    Param "new_voxel_size" false; Param "new_shape" false;
    Param "patch_center_mm" true ].

(** [(np.array(shape) - 1) / 2.0] *)
Definition center_vox (shape : list Z) : array1 :=
  div_scalar (sub_scalar (array_int shape) (Fin 1)) (Fin 2).

Definition build_new_affine
    (old_affine : list (list R)) (old_shape : list Z)
    (new_voxel_size : voxel_size) (new_shape : list Z)
    (patch_center_mm : option (list R)) : result array2 :=
  (let old_affine : array2 := map array old_affine in
   let new_voxel_size :=
     match new_voxel_size with
     | Scalar s => [s; s; s]
     | Tuple l => l
     end in
   let R_in := slice2 3 3 old_affine in
   let old_scales := np_sqrt (sum_axis0 (square R_in)) in
   sf ← broadcast2 fdiv (array new_voxel_size) old_scales;
   let S := diag sf in
   R_new ← matmul R_in S;
   old_center_mm ←
     match patch_center_mm with
     | None =>
         let old_center_vox := center_vox old_shape in
         old_center_mm ← matvec old_affine (hstack old_center_vox (Fin 1));
         Returned (take 3 old_center_mm)
     | Some p => Returned (array p)
     end;
   let new_center_vox := center_vox new_shape in
   Rc ← matvec R_new new_center_vox;
   t_new ← broadcast2 fsub old_center_mm Rc;
   let A_new := eye 4 in
   A_new ← assign_block33 A_new R_new;
   A_new ← assign_col3 A_new t_new;
   Returned A_new).

End Transform.

(** ** densify.py, from its specification *)

Module Densify.

Definition point : Type := R * R * R.
Definition streamline : Type := list point.

Definition padd (p q : point) : point :=
  (p.1.1 + q.1.1, p.1.2 + q.1.2, p.2 + q.2).
Definition psub (p q : point) : point :=
  (p.1.1 - q.1.1, p.1.2 - q.1.2, p.2 - q.2).
Definition pscale (k : R) (p : point) : point :=
  (k * p.1.1, k * p.1.2, k * p.2).
Definition norm (p : point) : R :=
  sqrt (p.1.1 * p.1.1 + p.1.2 * p.1.2 + p.2 * p.2).

Definition ceil (x : R) : Z := (- Int_part (- x))%Z.

(** The number of sub-steps of a segment: [ceil(length / step_size)]. *)
Definition substeps (length step_size : R) : nat :=
  Z.to_nat (ceil (length / step_size)).

(** What the debug flag asks to be emitted. *)
Inductive diagnostic : Type :=
| Tangent_vector (i : nat) (t : point)
| Basis_weights (h00 h10 h01 h11 : R).

Definition emit (debug : bool) (d : diagnostic) : list diagnostic :=
  if debug then [d] else [].

(** The process-wide flag the batch driver sets. *)
Definition debug_tangents (environ : gmap string string) : bool :=
  bool_decide (environ !! "DEBUG_TANGENTS" = Some "1").

(** Central difference at interior points, one-sided difference at the
    two ends. *)
Definition tangent (stream : streamline) (i : nat) : point :=
  let p k := nth k stream (0, 0, 0) in
  if (i =? 0)%nat then psub (p 1%nat) (p 0%nat)
  else if (i =? length stream - 1)%nat then psub (p i) (p (i - 1)%nat)
  else pscale (/ 2) (psub (p (i + 1)%nat) (p (i - 1)%nat)).

(** Normalised, then scaled by the length of the segment; a degenerate
    (zero) tangent is suppressed to zero. *)
Definition scaled_tangent (len : R) (t : point) : point :=
  if Req_dec_T (norm t) 0 then (0, 0, 0) else pscale (len / norm t) t.

(** The cubic Hermite basis. *)
Definition h00 (t : R) : R := 2 * t ^ 3 - 3 * t ^ 2 + 1.
Definition h10 (t : R) : R := t ^ 3 - 2 * t ^ 2 + t.
Definition h01 (t : R) : R := - 2 * t ^ 3 + 3 * t ^ 2.
Definition h11 (t : R) : R := t ^ 3 - t ^ 2.

Definition linear_point (p0 p1 : point) (t : R) : point :=
  padd p0 (pscale t (psub p1 p0)).

Definition hermite_point (p0 m0 p1 m1 : point) (t : R) : point :=
  padd (padd (pscale (h00 t) p0) (pscale (h10 t) m0))
       (padd (pscale (h01 t) p1) (pscale (h11 t) m1)).

(** The [k]-th of the [n] sub-points of segment [i], with what the debug
    flag emits for it. *)
Definition subpoint (debug hermite : bool) (stream : streamline) (i n k : nat)
  : list diagnostic * point :=
  let p0 := nth i stream (0, 0, 0) in
  let p1 := nth (S i) stream (0, 0, 0) in
  let t := INR k / INR n in
  if hermite then
    let len := norm (psub p1 p0) in
    let m0 := scaled_tangent len (tangent stream i) in
    let m1 := scaled_tangent len (tangent stream (S i)) in
    (emit debug (Basis_weights (h00 t) (h10 t) (h01 t) (h11 t)),
     hermite_point p0 m0 p1 m1 t)
  else ([], linear_point p0 p1 t).

(** Per-segment arc-length subdivision: the sub-points [1..n] of segment
    [i], the last of which is its end point. *)
Definition segment (debug hermite : bool) (stream : streamline) (step_size : R)
    (i : nat) : list diagnostic * list point :=
  let len := norm (psub (nth (S i) stream (0, 0, 0)) (nth i stream (0, 0, 0))) in
  let n := substeps len step_size in
  foldr (fun k acc =>
           let dp := subpoint debug hermite stream i n k in
           (dp.1 ++ acc.1, dp.2 :: acc.2))
        ([], []) (seq 1 n).

Definition densify (debug hermite : bool) (stream : streamline) (step_size : R)
  : list diagnostic * streamline :=
  let tangents :=
    if hermite then
      flat_map (fun i => emit debug (Tangent_vector i (tangent stream i)))
               (seq 0 (length stream))
    else [] in
  let body :=
    foldr (fun i acc =>
             let s := segment debug hermite stream step_size i in
             (s.1 ++ acc.1, s.2 ++ acc.2))
          ([], []) (seq 0 (length stream - 1)) in
  (tangents ++ body.1, take 1 stream ++ body.2).

(** Modelled from the spec: [densify_streamline_subvoxel] of [densify.py],
    which is not among the sources.  Section 4.4 of the specification:
    a streamline with fewer than 2 points is returned unchanged; every
    segment is cut in [ceil(length / step_size)] sub-steps; the sub-points
    are affine interpolations ([linear]) or blends of positions and
    tangents by the cubic Hermite basis ([hermite]); a debug flag asks
    for the tangent vectors and the basis weights to be emitted.  The
    specification names these two methods only: any other is a
    configuration error.  The two execution backends agree, so that
    [use_gpu] does not show in the result; the value is the pair of what
    is emitted and what is returned. *)
Definition densify_streamline_subvoxel
    (environ : gmap string string) (streamline : streamline) (step_size : R)
    (use_gpu : bool) (interp_method : string) (voxel_size : R)
  : list diagnostic * result (list point) :=
  let debug := debug_tangents environ in
  if (length streamline <? 2)%nat then ([], Returned streamline)
  else if String.eqb interp_method "linear" then
    let r := densify debug false streamline step_size in (r.1, Returned r.2)
  else if String.eqb interp_method "hermite" then
    let r := densify debug true streamline step_size in (r.1, Returned r.2)
  else ([], Raised (ValueError "unknown interpolation method")).

End Densify.

(** ** compare_interpolation.py *)

Module CompareInterpolation.

Section Driver.

(** [from densify import densify_streamline_subvoxel]: the densifier is
    not among the sources.  A call reads the process environment and
    the arguments, emits diagnostics, and returns the densified
    streamline or raises. *)
Context {streamline diagnostic : Type}.
Variable densify_streamline_subvoxel :
  gmap string string → streamline → R → bool → string → R →
  list diagnostic * result streamline.

(** What the driver prints, and, as a ghost event, each call of the
    densifier with the environment it runs in and its arguments. *)
Inductive event : Type :=
| Print_processing (n : nat) (method : string) (voxel_size : R)
| Print_progress (idx n : nat)
| Print_scaled_step (scaled_step_size step_size voxel_size : R)
| Call_densify (idx : nat) (environ : gmap string string)
    (stream : streamline) (step_size : R) (use_gpu : bool)
    (interp_method : string) (voxel_size : R)
| Densifier_output (d : diagnostic)
| Print_error (idx : nat) (e : exn)
| Print_processed (k n : nat) (method : string).

(** The process state the driver acts on: [os.environ] and what has
    been written to standard output so far. *)
Record state : Type := State {
  environ : gmap string string;
  stdout : list event
}.

Definition print (e : event) (st : state) : state :=
  State (environ st) (stdout st ++ [e]).

Definition print_all (es : list event) (st : state) : state :=
  State (environ st) (stdout st ++ es).

(** [os.environ[key] = value] *)
Definition setenv (key value : string) (st : state) : state :=
  State (<[key := value]> (environ st)) (stdout st).

(** The body of the [for idx, stream in enumerate(streamlines)] loop,
    run on the streamlines from index [idx] on; [n] is
    [len(streamlines)]. *)
Fixpoint loop (n : nat) (step_size : R) (method : string) (voxel_size : R)
    (use_gpu : bool) (idx : nat) (streamlines : list streamline)
    (st : state) (processed : list streamline) : state * list streamline :=
  match streamlines with
  | [] => (st, processed)
  | stream :: rest =>
      let st :=
        if (idx mod 50 =? 0)%nat then print (Print_progress idx n) st
        else st in
      (* try: *)
      let st :=
        setenv "DEBUG_TANGENTS" (if (idx <? 5)%nat then "1" else "0") st in
      let scaled_step_size := step_size * (voxel_size / 1) in
      let st :=
        if (idx <? 5)%nat
        then print (Print_scaled_step scaled_step_size step_size voxel_size) st
        else st in
      let st :=
        print (Call_densify idx (environ st) stream scaled_step_size use_gpu
                 method voxel_size) st in
      let out :=
        densify_streamline_subvoxel (environ st) stream scaled_step_size
          use_gpu method voxel_size in
      let st := print_all (map Densifier_output out.1) st in
      match out.2 with
      | Returned densified =>
          loop n step_size method voxel_size use_gpu (S idx) rest st
            (processed ++ [densified])
      | Raised e =>
          (* except Exception as e: *)
          loop n step_size method voxel_size use_gpu (S idx) rest
            (print (Print_error idx e) st) processed
      end
  end.

Definition process_streamlines_with_method
    (streamlines : list streamline) (step_size : R) (method : string)
    (voxel_size : R) (use_gpu : bool) (st : state)
  : state * list streamline :=
  let n := length streamlines in
  let st := print (Print_processing n method voxel_size) st in
  let r := loop n step_size method voxel_size use_gpu 0 streamlines st [] in
  (print (Print_processed (length r.2) n method) r.1, r.2).

(** The densifier calls recorded in a log. *)
Record call : Type := Call {
  call_idx : nat;
  call_environ : gmap string string;
  call_stream : streamline;
  call_step_size : R;
  call_use_gpu : bool;
  call_method : string;
  call_voxel_size : R
}.

Definition calls (log : list event) : list call :=
  omap (fun e => match e with
                 | Call_densify i env s st g m v => Some (Call i env s st g m v)
                 | _ => None
                 end) log.

(** The failures recorded in a log. *)
Definition errors (log : list event) : list (nat * exn) :=
  omap (fun e => match e with
                 | Print_error i e => Some (i, e)
                 | _ => None
                 end) log.

End Driver.

Arguments event : clear implicits.
Arguments state : clear implicits.
Arguments call : clear implicits.

End CompareInterpolation.

(** ** main.py *)

Module Main.
Import Np.

Definition streamline : Type := Densify.streamline.

(** [from transform import build_new_affine]: the function the name is
    bound to, with its parameter list. *)
Record build_new_affine_def : Type := Def {
  def_signature : Py.signature;
  def_body : list (list R) → list Z → Transform.voxel_size → list Z →
             option (list R) → result array2
}.

(** The function of [transform.py]. *)
Definition transform_build_new_affine : build_new_affine_def :=
  Def Transform.build_new_affine_signature Transform.build_new_affine.

Section Pipeline.

(** The array type of the resampled data. *)
Context {volume : Type}.

(** What [nib.load] returns: [img.affine], [img.shape],
    [img.header.get_zooms()] and the data. *)
Record nifti_image : Type := Nifti_image {
  affine : list (list R);
  shape : list Z;
  zooms : list R;
  dataobj : volume
}.

Record trk_header : Type := Trk_header {
  dimensions : list Z;
  voxel_sizes : array1;
  voxel_to_rasmm : array2
}.

(** What [nib.streamlines.load] returns. *)
Record trk_file : Type := Trk_file {
  tractogram_streamlines : list streamline;
  header : trk_header
}.

(** The collaborators: nibabel, the array library, the file system and
    the modules [nifti_preprocessing] and [streamline_processing],
    which are not among the sources.  Each is called at most once in a
    run. *)
Record collaborators : Type := {
  import_gpu_libraries : result unit;
  nib_load : string → result nifti_image;
  resample_nifti :
    nifti_image → array2 → list Z → list Z → Z → bool → R →
    result (volume * option string);
  data_shape : volume → list Z;
  xp_max_axis1 : volume → volume;
  xp_mean_axis1 : volume → volume;
  newaxis : volume → volume;
  asnumpy : volume → volume;
  nib_save : volume → array2 → string → result unit;
  path_exists : string → bool;
  os_remove : string → result unit;
  streamlines_load : string → result trk_file;
  transform_and_densify_streamlines :
    list streamline → array2 → list Z → R → Z → bool → string →
    result (list streamline);
  save_trk : list streamline → array2 → string → trk_header → result unit
}.

(** The calls a run makes. *)
Inductive operation : Type :=
| Import_gpu_libraries
| Nib_load (path : string)
| Build_new_affine
| Resample_nifti
| Nib_save (path : string)
| Path_exists (path : option string)
| Os_remove (path : string)
| Streamlines_load (path : string)
| Transform_and_densify_streamlines
| Save_trk (path : string).

(** A run is observed through what it prints and the calls it makes:
    [Call] when a call starts, [Done] when it has returned without
    raising. *)
Inductive event : Type :=
| Print (line : string)
| Print_processed (n : nat)
| Call (op : operation)
| Done (op : operation).

(** A computation: its trace, and its value or the exception that ended
    it. *)
Definition prog (A : Type) : Type := list event * result A.

Definition ret {A : Type} (a : A) : prog A := ([], Returned a).

Definition seq_ {A B : Type} (m : prog A) (k : A → prog B) : prog B :=
  match m.2 with
  | Returned a => let r := k a in (m.1 ++ r.1, r.2)
  | Raised e => (m.1, Raised e)
  end.

Definition print (line : string) : prog unit := ([Print line], Returned tt).

Definition raise {A : Type} (e : exn) : prog A := ([], Raised e).

Definition call {A : Type} (op : operation) (r : result A) : prog A :=
  match r with
  | Returned a => ([Call op; Done op], Returned a)
  | Raised e => ([Call op], Raised e)
  end.

Definition when (b : bool) (m : prog unit) : prog unit :=
  if b then m else ret tt.

(** [t[i]] on a tuple *)
Definition index (t : list Z) (i : nat) : prog Z :=
  match t !! i with
  | Some x => ret x
  | None => raise IndexError
  end.

(** [os.path.exists(p)]: a [TypeError] when [p] is [None] *)
Definition os_path_exists (w : collaborators) (p : option string) : prog bool :=
  call (Path_exists p)
    match p with
    | Some s => Returned (path_exists w s)
    | None => Raised (TypeError "stat: path should be string, not NoneType")
    end.

(** [np.sqrt(np.sum(A_new[:3, :3] ** 2, axis=0))] *)
Definition new_voxsize (A_new : array2) : array1 :=
  np_sqrt (sum_axis0 (square (slice2 3 3 A_new))).

Definition total_points (streams : list streamline) : nat :=
  foldr (fun s acc => (length s + acc)%nat) 0%nat streams.

(** [a / b] on Python ints, for the values that are only printed *)
Definition int_div (b : nat) : prog unit :=
  if (b =? 0)%nat then raise ZeroDivisionError else ret tt.

Local Notation "'do' x <- m ; k" := (seq_ m (fun x => k))
  (at level 10, x name, m at level 100, k at level 200, only parsing).

Definition warning_no_streamlines : string :=
  "WARNING: No streamlines were processed. Check your parameters and consider a larger voxel size or different step size.".

(** [try: m except ImportError: handler] *)
Definition except_ImportError {A : Type} (m handler : prog A) : prog A :=
  match m.2 with
  | Raised ImportError => (m.1 ++ handler.1, handler.2)
  | _ => m
  end.

(** The choice of the array library; its value is [use_gpu] afterwards. *)
Definition choose_array_library (w : collaborators) (use_gpu : bool) : prog bool :=
  if use_gpu then
    except_ImportError
      (do _ <- call Import_gpu_libraries (import_gpu_libraries w) ;
       do _ <- print "Using GPU acceleration" ;
       ret true)
      (do _ <- print "Could not import GPU libraries, falling back to CPU" ;
       ret false)
  else
    do _ <- print "Using CPU processing" ;
    ret false.

Definition process_and_save_importing
    (build_new_affine : build_new_affine_def) (w : collaborators)
    (old_nifti_path old_trk_path : string)
    (new_voxel_size : Transform.voxel_size) (new_dim : list Z)
    (output_prefix : string) (n_jobs : Z) (patch_center : option (list R))
    (reduction_method : option string) (use_gpu : bool)
    (interp_method : string) (step_size : R) (max_output_gb : R)
  : prog unit :=
  do use_gpu <- choose_array_library w use_gpu ;
  do _ <- print "Loading NIfTI data" ;
  do old_img <- call (Nib_load old_nifti_path) (nib_load w old_nifti_path) ;
  let old_affine := affine old_img in
  let old_shape := take 3 (shape old_img) in
  do _ <- print "Old shape: {old_shape}" ;
  do _ <- print "Old voxel sizes: {old_voxel_sizes}" ;
  do _ <- print "Old affine: {old_affine}" ;
  do _ <- print "Building new affine" ;
  do _ <- print "Using dimensions: {new_dim}" ;
  do A_new <-
    call Build_new_affine
      (_ ← bind_arguments (def_signature build_new_affine) 4
             ["patch_center_mm"; "use_gpu"];
       def_body build_new_affine old_affine old_shape new_voxel_size
         new_dim patch_center) ;
  do _ <- print "New affine: {A_new}" ;
  do _ <- print "New dimensions: {new_dim}" ;
  do _ <- print "Resampling NIfTI data using {GPU or CPU}" ;
  do _ <- print "Resampling to dimensions: {new_dim}, Memory limit: {max_output_gb} GB" ;
  do resampled <-
    call Resample_nifti
      (resample_nifti w old_img A_new new_dim [64; 64; 64]%Z n_jobs use_gpu
         max_output_gb) ;
  let new_data := resampled.1 in
  let tmp_mmap := resampled.2 in
  do _ <- print "Resampled data shape: {new_data.shape}" ;
  do _ <- when (negb (bool_decide (take 3 (data_shape w new_data) = new_dim)))
        (do _ <- print "WARNING: Resampled shape does not match expected dimensions" ;
         print "This could lead to streamline clipping issues!") ;
  do reduced <-
    match reduction_method with
    | Some method =>
        if String.eqb method "" then ret (new_data, new_dim)
        else
          do _ <- print "Applying reduction: {reduction_method}" ;
          do reduced_data <-
            (if String.eqb method "mip" then ret (xp_max_axis1 w new_data)
             else if String.eqb method "mean" then ret (xp_mean_axis1 w new_data)
             else raise (ValueError "Unsupported reduction method")) ;
          do d0 <- index new_dim 0 ;
          do d2 <- index new_dim 2 ;
          ret (newaxis w reduced_data, [d0; 1%Z; d2])
    | None => ret (new_data, new_dim)
    end ;
  let new_data := reduced.1 in
  let new_dim := reduced.2 in
  let new_data_np := if use_gpu then asnumpy w new_data else new_data in
  do _ <- print "Final data shape before saving: {new_data_np.shape}" ;
  let out_nifti_path := (output_prefix ++ ".nii.gz")%string in
  do _ <- call (Nib_save out_nifti_path)
        (nib_save w new_data_np A_new out_nifti_path) ;
  do found <- os_path_exists w tmp_mmap ;
  do _ <- when found
        (match tmp_mmap with
         | Some p => call (Os_remove p) (os_remove w p)
         | None => ret tt
         end) ;
  do _ <- print "Saved new NIfTI at {out_nifti_path}" ;
  do _ <- print "Loading tractography data" ;
  do trk_obj <-
    call (Streamlines_load old_trk_path) (streamlines_load w old_trk_path) ;
  let old_streams_mm := tractogram_streamlines trk_obj in
  do _ <- print "Loaded {len(old_streams_mm)} streamlines" ;
  let total_points_old := total_points old_streams_mm in
  do _ <- print "Total points in original streamlines: {total_points}" ;
  do _ <- print "Average points per streamline: {avg_points}" ;
  do _ <- print "Transforming, densifying, and clipping streamlines" ;
  do _ <- print "Step size: {step_size}, Voxel size: {new_voxel_size}, FOV clipping enabled" ;
  do densified_vox <-
    call Transform_and_densify_streamlines
      (transform_and_densify_streamlines w old_streams_mm A_new new_dim
         step_size n_jobs use_gpu interp_method) ;
  do _ <- ([Print_processed (length densified_vox)], Returned tt) ;
  if (length densified_vox =? 0)%nat then
    do _ <- print warning_no_streamlines ;
    ret tt
  else
    do _ <- print "Total points in processed streamlines: {total_points_new}" ;
    do _ <- print "Average points per streamline: {avg_points_new}" ;
    do _ <- int_div (length old_streams_mm) ;
    do _ <- print "Change in streamline count" ;
    do _ <- int_div total_points_old ;
    do _ <- print "Change in point count" ;
    let new_trk_header :=
      Trk_header new_dim (new_voxsize A_new) A_new in
    do _ <- print "Saving new .trk file" ;
    let out_trk_path := (output_prefix ++ ".trk")%string in
    do _ <- call (Save_trk out_trk_path)
          (save_trk w densified_vox A_new out_trk_path new_trk_header) ;
    do _ <- print "Saved new .trk at {out_trk_path}" ;
    print "Process completed successfully".

(** [process_and_save], with [build_new_affine] bound as the import
    statement of [main.py] binds it. *)
Definition process_and_save := process_and_save_importing transform_build_new_affine.

End Pipeline.

Arguments collaborators : clear implicits.
Arguments nifti_image : clear implicits.

End Main.

(** ** compare_interpolation.py: the comparison of the metrics *)

(** [compare_metrics] prints a report on two dicts of metrics.  The dicts
    are modelled as far as their scalar entries go, with finite values; a
    printed line is kept with the numbers it formats. *)

Module CompareMetrics.

(** The lines [compare_metrics] prints. *)
Inductive line : Type :=
| Comparison_of_metrics
| Metric (name : string) (linear hermite difference percent : R)
| Summary
| Curvature_change (percent : R) (higher : bool)
| Curvature_minimal
| Length_change (percent : R) (longer : bool)
| Length_minimal
| Recommendation
| Hermite_preserves_curvature
| Use_hermite
| Hermite_less_curvature
| Verify_hermite
| Either_method.

(** A dict of metrics. *)
Definition metrics : Type := gmap string R.

(** [d.get(key, 0)] *)
Definition get (d : metrics) (key : string) : R := default 0 (d !! key).

(** [key in d] *)
Definition has (d : metrics) (key : string) : bool := bool_decide (is_Some (d !! key)).

(** [x > y] on floats *)
Definition gt (x y : R) : bool := if Rgt_dec x y then true else false.

(** [(diff / base * 100) if base > 0 else 0] *)
Definition percent (diff base : R) : R :=
  if gt base 0 then diff / base * 100 else 0.

Definition compare_metrics (linear_metrics hermite_metrics : metrics) : list line :=
  let linear_mean_curv := get linear_metrics "mean_curvature" in
  let hermite_mean_curv := get hermite_metrics "mean_curvature" in
  let curv_diff := hermite_mean_curv - linear_mean_curv in
  let curv_pct := percent curv_diff linear_mean_curv in
  let linear_max_curv := get linear_metrics "max_curvature" in
  let hermite_max_curv := get hermite_metrics "max_curvature" in
  let max_curv_diff := hermite_max_curv - linear_max_curv in
  let max_curv_pct := percent max_curv_diff linear_max_curv in
  let linear_mean_len := get linear_metrics "mean_length" in
  let hermite_mean_len := get hermite_metrics "mean_length" in
  let len_diff := hermite_mean_len - linear_mean_len in
  let len_pct := percent len_diff linear_mean_len in
  let linear_total_len := get linear_metrics "total_length" in
  let hermite_total_len := get hermite_metrics "total_length" in
  let total_len_diff := hermite_total_len - linear_total_len in
  let total_len_pct := percent total_len_diff linear_total_len in
  [ Comparison_of_metrics;
    Metric "Mean Curvature" linear_mean_curv hermite_mean_curv curv_diff curv_pct;
    Metric "Max Curvature" linear_max_curv hermite_max_curv max_curv_diff max_curv_pct;
    Metric "Mean Length" linear_mean_len hermite_mean_len len_diff len_pct;
    Metric "Total Length" linear_total_len hermite_total_len total_len_diff
      total_len_pct ]
  ++ (if has linear_metrics "mean_torsion" && has hermite_metrics "mean_torsion" then
        let linear_mean_torsion := get linear_metrics "mean_torsion" in
        let hermite_mean_torsion := get hermite_metrics "mean_torsion" in
        let torsion_diff := hermite_mean_torsion - linear_mean_torsion in
        let torsion_pct := percent torsion_diff linear_mean_torsion in
        [Metric "Mean Torsion" linear_mean_torsion hermite_mean_torsion torsion_diff
           torsion_pct]
      else [])
  ++ [Summary]
  ++ (if gt (Rabs curv_pct) 5 then [Curvature_change (Rabs curv_pct) (gt curv_pct 0)]
      else [Curvature_minimal])
  ++ (if gt (Rabs len_pct) 5 then [Length_change (Rabs len_pct) (gt len_pct 0)]
      else [Length_minimal])
  ++ [Recommendation]
  ++ (if gt (Rabs curv_pct) 10 || gt (Rabs len_pct) 5 then
        if gt curv_pct 0 then [Hermite_preserves_curvature; Use_hermite]
        else [Hermite_less_curvature; Verify_hermite]
      else [Either_method]).

End CompareMetrics.

(** ** compare_interpolation.py: the comparison and the script *)

(** [compare_interpolations] loads a tractogram, runs the batch driver with
    both methods, and reports; [main] calls it.  The two plotting functions
    of the script are kept as calls that return or raise; no collaborator
    but the densifier reads the environment. *)

Module Comparison.
Import CompareInterpolation CompareMetrics.

Section Script.

(** [from densify import densify_streamline_subvoxel,
    calculate_streamline_metrics]: neither is among the sources. *)
Context {streamline diagnostic : Type}.
Variable densify_streamline_subvoxel :
  gmap string string → streamline → R → bool → string → R →
  list diagnostic * result streamline.

(** What [nib.streamlines.load] returns: [trk_data.streamlines] and
    [trk_data.header.get('voxel_sizes')]. *)
Record trk_data : Type := Trk_data {
  trk_streamlines : list streamline;
  header_voxel_sizes : option (list R)
}.

(** The collaborators: nibabel, [calculate_streamline_metrics], and the
    two plotting functions of the script, of which only the call, and
    whether it returns, is kept. *)
Record collaborators : Type := {
  nib_streamlines_load : string → result trk_data;
  calculate_streamline_metrics : list streamline → result metrics;
  visualize_comparison : list streamline → list streamline → result unit;
  plot_metrics_comparison : metrics → metrics → result unit
}.

Inductive operation : Type :=
| Load_trk (path : string)
| Calculate_metrics
| Visualize
| Plot.

(** What a run of the script writes to standard output, and, as ghost
    items, its calls of the collaborators. *)
Inductive item : Type :=
| Say (line : string)
| Limiting_to (num_streamlines : Z)
| From_driver (e : event streamline diagnostic)
| From_compare_metrics (l : line)
| Curvature_summary (percent : R) (higher : bool)
| Torsion_summary (percent : R) (higher : bool)
| Calling (op : operation)
| Back_from (op : operation).

(** The process the script runs in: [os.environ] and what has been
    written so far. *)
Record process : Type := Process {
  os_environ : gmap string string;
  written : list item
}.

(** [trk_data.header.get('voxel_sizes', [1.0, 1.0, 1.0])] *)
Definition voxel_sizes_or_default (d : trk_data) : list R :=
  default [1; 1; 1] (header_voxel_sizes d).

Definition prog (A : Type) : Type := process → process * result A.

Definition ret {A : Type} (a : A) : prog A := fun p => (p, Returned a).

Definition raise {A : Type} (e : exn) : prog A := fun p => (p, Raised e).

Definition bind {A B : Type} (m : prog A) (k : A → prog B) : prog B :=
  fun p =>
    let r := m p in
    match r.2 with
    | Returned a => k a r.1
    | Raised e => (r.1, Raised e)
    end.

Local Notation "'do' x <- m ; k" := (bind m (fun x => k))
  (at level 10, x name, m at level 100, k at level 200, only parsing).

Definition say (i : item) : prog unit :=
  fun p => (Process (os_environ p) (written p ++ [i]), Returned tt).

Definition say_all (l : list item) : prog unit :=
  fun p => (Process (os_environ p) (written p ++ l), Returned tt).

Definition call {A : Type} (op : operation) (r : result A) : prog A :=
  fun p =>
    match r with
    | Returned a =>
        (Process (os_environ p) (written p ++ [Calling op; Back_from op]),
         Returned a)
    | Raised e => (Process (os_environ p) (written p ++ [Calling op]), Raised e)
    end.

(** [os.environ[key] = value] *)
Definition setenv (key value : string) : prog unit :=
  fun p => (Process (<[key := value]> (os_environ p)) (written p), Returned tt).

(** A call of [process_streamlines_with_method] in the process. *)
Definition driver (streamlines : list streamline) (step_size : R)
    (method : string) (voxel_size : R) (use_gpu : bool)
  : prog (list streamline) :=
  fun p =>
    let r := process_streamlines_with_method densify_streamline_subvoxel
               streamlines step_size method voxel_size use_gpu
               (State (os_environ p) []) in
    (Process (environ r.1) (written p ++ map From_driver (stdout r.1)),
     Returned r.2).

(** [float(np.mean(l))] *)
Definition mean (l : list R) : R := foldr Rplus 0 l / INR (length l).

(** [l[:n]] *)
Definition slice_to (n : Z) (l : list streamline) : list streamline :=
  take (Z.to_nat (if (n <? 0)%Z then Z.of_nat (length l) + n else n)%Z) l.

(** The streamlines that are processed. *)
Definition selection (num_streamlines : option Z) (l : list streamline)
  : list streamline :=
  match num_streamlines with
  | Some n => if (n <? Z.of_nat (length l))%Z then slice_to n l else l
  | None => l
  end.

Variable w : collaborators.

Definition calculate_metrics_for_both_methods
    (linear_streams hermite_streams : list streamline)
  : prog (metrics * metrics) :=
  do _ <- say (Say "Calculating metrics for linear interpolation...") ;
  do linear_metrics <-
    call Calculate_metrics (calculate_streamline_metrics w linear_streams) ;
  do _ <- say (Say "Calculating metrics for Hermite interpolation...") ;
  do hermite_metrics <-
    call Calculate_metrics (calculate_streamline_metrics w hermite_streams) ;
  ret (linear_metrics, hermite_metrics).

Definition unbound_local : exn := OtherError "UnboundLocalError".

(** The value of a local variable that is bound on some paths only. *)
Definition local (x : option R) : prog R :=
  match x with
  | Some v => ret v
  | None => raise unbound_local
  end.

Definition error_line : string :=
  "ERROR: Failed to process streamlines with one or both methods.".

Definition both_higher : string :=
  "Both curvature and torsion are significantly higher with Hermite interpolation, indicating better preservation of streamline geometry.".

Definition both_lower : string :=
  "Both curvature and torsion are lower with Hermite interpolation, which may indicate smoothing or implementation issues.".

Definition mixed_results : string :=
  "Mixed results between curvature and torsion metrics. Visual inspection is recommended.".

(** The end of [compare_interpolations], from the line
    [Torsion and Curvature Summary] on. *)
Definition torsion_and_curvature_summary (linear_metrics hermite_metrics : metrics)
  : prog unit :=
  do _ <- say (Say "Torsion and Curvature Summary:") ;
  do curv_diff_pct <-
    (if has linear_metrics "mean_curvature" && has hermite_metrics "mean_curvature"
     then
       let curv_diff_pct :=
         percent (get hermite_metrics "mean_curvature"
                  - get linear_metrics "mean_curvature")
           (get linear_metrics "mean_curvature") in
       do _ <- say (Curvature_summary (Rabs curv_diff_pct) (gt curv_diff_pct 0)) ;
       ret (Some curv_diff_pct)
     else ret None) ;
  do torsion_diff_pct <-
    (if has linear_metrics "mean_torsion" && has hermite_metrics "mean_torsion"
     then
       let torsion_diff_pct :=
         percent (get hermite_metrics "mean_torsion"
                  - get linear_metrics "mean_torsion")
           (get linear_metrics "mean_torsion") in
       do _ <- say (Torsion_summary (Rabs torsion_diff_pct)
                      (gt torsion_diff_pct 0)) ;
       ret (Some torsion_diff_pct)
     else ret None) ;
  if has linear_metrics "mean_curvature" && has linear_metrics "mean_torsion" then
    do higher <-
      (do c <- local curv_diff_pct ;
       if gt c 5 then
         do t <- local torsion_diff_pct ;
         ret (gt t 5)
       else ret false) ;
    if higher then say (Say both_higher)
    else
      do lower <-
        (do c <- local curv_diff_pct ;
         if gt (-5) c then
           do t <- local torsion_diff_pct ;
           ret (gt (-5) t)
         else ret false) ;
      if lower then say (Say both_lower)
      else say (Say mixed_results)
  else ret tt.

(** The rest of [compare_interpolations], once both methods have run. *)
Definition report_on (linear_streams hermite_streams : list streamline)
  : prog unit :=
  if bool_decide (linear_streams = []) || bool_decide (hermite_streams = []) then
    do _ <- say (Say error_line) ;
    ret tt
  else
    do _ <- say (Say "Basic Statistics:") ;
    do _ <- say (Say "Linear interpolation: {len(linear_streams)} streamlines processed.") ;
    do _ <- say (Say "Hermite interpolation: {len(hermite_streams)} streamlines processed.") ;
    do _ <- say (Say "Total points - Linear: {total_points_linear}, Hermite: {total_points_hermite}") ;
    do _ <- say (Say "Difference in point count: {diff}") ;
    do both <- calculate_metrics_for_both_methods linear_streams hermite_streams ;
    let linear_metrics := both.1 in
    let hermite_metrics := both.2 in
    do _ <- say_all (map From_compare_metrics
                       (compare_metrics linear_metrics hermite_metrics)) ;
    do _ <- call Visualize (visualize_comparison w linear_streams hermite_streams) ;
    do _ <- call Plot (plot_metrics_comparison w linear_metrics hermite_metrics) ;
    do _ <- say (Say "Comparison completed. Check the generated plots for visual details.") ;
    torsion_and_curvature_summary linear_metrics hermite_metrics.

Definition compare_interpolations (trk_file : string) (step_size : R)
    (voxel_size : option R) (num_streamlines : option Z) (use_gpu : bool)
  : prog unit :=
  do _ <- say (Say "Comparing interpolation methods on {trk_file}") ;
  do _ <- say (Say "Step size: {step_size}, Using GPU: {use_gpu}") ;
  do _ <- say (Say "Loading streamlines...") ;
  do trk_data <- call (Load_trk trk_file) (nib_streamlines_load w trk_file) ;
  let streamlines := trk_streamlines trk_data in
  let original_voxel_sizes := voxel_sizes_or_default trk_data in
  let original_voxel_size := mean original_voxel_sizes in
  let voxel_size := default original_voxel_size voxel_size in
  do _ <-
    (if (length original_voxel_sizes <? 3)%nat then raise IndexError
     else say (Say "Original voxel sizes: {original_voxel_sizes}mm")) ;
  do _ <- say (Say "Mean voxel size: {original_voxel_size}mm, Using voxel size: {voxel_size}mm") ;
  do _ <- say (Say "Loaded {len(streamlines)} streamlines.") ;
  do streamlines <-
    match num_streamlines with
    | Some n =>
        if (n <? Z.of_nat (length streamlines))%Z then
          do _ <- say (Limiting_to n) ;
          ret (slice_to n streamlines)
        else ret streamlines
    | None => ret streamlines
    end ;
  do linear_streams <- driver streamlines step_size "linear" voxel_size use_gpu ;
  do hermite_streams <- driver streamlines step_size "hermite" voxel_size use_gpu ;
  report_on linear_streams hermite_streams.

(** The parsed command line. *)
Record arguments : Type := Arguments_ {
  trk_file : string;
  arg_step_size : R;
  arg_voxel_size : option R;
  arg_num_streamlines : option Z;
  arg_use_gpu : bool;
  debug_tangents : bool
}.

(** [main], once the command line is parsed. *)
Definition main (args : arguments) : prog unit :=
  do _ <-
    (if debug_tangents args then
       do _ <- setenv "DEBUG_TANGENTS" "1" ;
       say (Say "Tangent debugging enabled")
     else ret tt) ;
  compare_interpolations (trk_file args) (arg_step_size args)
    (arg_voxel_size args) (arg_num_streamlines args) (arg_use_gpu args).

(** The items of the driver in what was written. *)
Definition driver_log (l : list item) : list (event streamline diagnostic) :=
  omap (fun i => match i with From_driver e => Some e | _ => None end) l.

End Script.

Arguments collaborators : clear implicits.
Arguments item : clear implicits.
Arguments process : clear implicits.
Arguments trk_data : clear implicits.

End Comparison.

(** * Specification-side notions *)

(** ** The affine builder, over the reals *)

Module TransformSpec.
Import Np Transform.

Definition entry (M : list (list R)) (i j : nat) : R := nth j (nth i M []) 0.

(** The voxel size an affine gives to axis [j]: the norm of column [j] of
    its linear part. *)
Definition column_norm (M : list (list R)) (j : nat) : R :=
  sqrt (entry M 0 j * entry M 0 j + entry M 1 j * entry M 1 j
        + entry M 2 j * entry M 2 j).

Definition is_affine (M : list (list R)) : Prop :=
  length M = 4%nat ∧ Forall (fun row => length row = 4%nat) M.

(** The voxel sizes asked for, one per axis. *)
Definition requested (vs : voxel_size) : list R :=
  match vs with Scalar s => [s; s; s] | Tuple l => l end.

(** The center voxel index of a grid, [(shape - 1) / 2]. *)
Definition center_index (shape : list Z) : list R :=
  map (fun n => (IZR n - 1) / 2) shape.

(** An affine applied to a voxel index, in physical coordinates. *)
Definition affine_apply (M : list (list R)) (p : list R) : list R :=
  map (fun i => entry M i 0 * nth 0 p 0 + entry M i 1 * nth 1 p 0
                + entry M i 2 * nth 2 p 0 + entry M i 3) [0; 1; 2]%nat.

(** The physical center the new grid has to keep. *)
Definition chosen_center (old_affine : list (list R)) (old_shape : list Z)
    (patch_center_mm : option (list R)) : list R :=
  match patch_center_mm with
  | Some p => p
  | None => affine_apply old_affine (center_index old_shape)
  end.

(** Valid input: a 4x4 affine whose linear part has no zero column,
    3-length shapes, a scalar or 3-length voxel size and, when given, a
    3-length patch center. *)
Record valid_input (old_affine : list (list R)) (old_shape : list Z)
    (vs : voxel_size) (new_shape : list Z) (pc : option (list R)) : Prop := {
  valid_affine : is_affine old_affine;
  valid_scales : ∀ j, (j < 3)%nat → column_norm old_affine j ≠ 0;
  valid_old_shape : length old_shape = 3%nat;
  valid_voxel_size : length (requested vs) = 3%nat;
  valid_new_shape : length new_shape = 3%nat;
  valid_patch_center : ∀ p, pc = Some p → length p = 3%nat
}.

(** The scale factor of axis [j]: desired over old. *)
Definition scale_factor (old_affine : list (list R)) (vs : voxel_size) (j : nat) : R :=
  nth j (requested vs) 0 / column_norm old_affine j.

(** The affine that is to be returned, entry by entry. *)
Definition new_linear (old_affine : list (list R)) (vs : voxel_size) (i j : nat) : R :=
  entry old_affine i j * scale_factor old_affine vs j.

Definition new_translation (old_affine : list (list R)) (old_shape : list Z)
    (vs : voxel_size) (new_shape : list Z) (pc : option (list R)) (i : nat) : R :=
  nth i (chosen_center old_affine old_shape pc) 0
  - (new_linear old_affine vs i 0 * nth 0 (center_index new_shape) 0
     + new_linear old_affine vs i 1 * nth 1 (center_index new_shape) 0
     + new_linear old_affine vs i 2 * nth 2 (center_index new_shape) 0).

Definition new_affine (old_affine : list (list R)) (old_shape : list Z)
    (vs : voxel_size) (new_shape : list Z) (pc : option (list R)) : list (list R) :=
  map (fun i => map (new_linear old_affine vs i) [0; 1; 2]%nat
                ++ [new_translation old_affine old_shape vs new_shape pc i])
      [0; 1; 2]%nat
  ++ [[0; 0; 0; 1]].

(** Voxels of 1 mm, origin at 0. *)
Definition unit_affine : list (list R) :=
  [[1; 0; 0; 0]; [0; 1; 0; 0]; [0; 0; 1; 0]; [0; 0; 0; 1]].

(** Voxels of 2 mm, origin at (10, 20, 30). *)
Definition two_mm_affine : list (list R) :=
  [[2; 0; 0; 10]; [0; 2; 0; 20]; [0; 0; 2; 30]; [0; 0; 0; 1]].

End TransformSpec.

(** ** The batch driver *)

Module DriverSpec.
Import CompareInterpolation.

Section Spec.
Context {streamline diagnostic : Type}.
Variable densify :
  gmap string string → streamline → R → bool → string → R →
  list diagnostic * result streamline.

(** The value of the debug flag for the streamline at index [idx]. *)
Definition flag (idx : nat) : string := if (idx <? 5)%nat then "1" else "0".

(** The call the driver is to make for the streamline at index [idx],
    in a process whose environment is [env] when the driver starts. *)
Definition call_at (env : gmap string string) (step_size : R) (method : string)
    (voxel_size : R) (use_gpu : bool) (idx : nat) (stream : streamline)
  : call streamline :=
  Call idx (<["DEBUG_TANGENTS" := flag idx]> env) stream
    (step_size * voxel_size) use_gpu method voxel_size.

Definition expected_calls (env : gmap string string) (step_size : R)
    (method : string) (voxel_size : R) (use_gpu : bool) (idx : nat)
    (streamlines : list streamline) : list (call streamline) :=
  zip_with (call_at env step_size method voxel_size use_gpu)
    (seq idx (length streamlines)) streamlines.

(** What the densifier answers to a call. *)
Definition outcome (c : call streamline) : result streamline :=
  (densify (call_environ c) (call_stream c) (call_step_size c)
     (call_use_gpu c) (call_method c) (call_voxel_size c)).2.

(** The densified streamlines of the calls that returned, in order. *)
Definition successes (cs : list (call streamline)) : list streamline :=
  omap (fun c => match outcome c with
                 | Returned d => Some d
                 | Raised _ => None
                 end) cs.

(** The calls that raised, each with its index and its exception. *)
Definition failures (cs : list (call streamline)) : list (nat * exn) :=
  omap (fun c => match outcome c with
                 | Returned _ => None
                 | Raised e => Some (call_idx c, e)
                 end) cs.
End Spec.

(** A densifier that returns its (trivial) streamline. *)
Definition constant_densifier (_ : gmap string string) (_ : unit) (_ : R)
    (_ : bool) (_ : string) (_ : R) : list unit * result unit :=
  ([], Returned tt).

End DriverSpec.

(** ** Monitors of the runs of the pipeline *)

Module Monitor.
Import Np Main.

#[export] Instance operation_eq_dec : EqDecision operation.
Proof. solve_decision. Defined.

#[export] Instance event_eq_dec : EqDecision event.
Proof. solve_decision. Defined.

Section Monitor.
Context {S : Type} (δ : S → event → option S).

(** A monitor reads a trace event by event; [None] is a violation. *)
Fixpoint run (s : S) (tr : list event) : option S :=
  match tr with
  | [] => Some s
  | e :: tr' =>
      match δ s e with
      | Some s' => run s' tr'
      | None => None
      end
  end.

(** The monitor accepts the trace of [m] from [s], and ends in a state
    that satisfies [Q] with the value of [m], or [E] with the exception
    that ended it. *)
Definition wp {A : Type} (m : prog A) (s : S)
    (Q : A → S → Prop) (E : exn → S → Prop) : Prop :=
  match run s m.1 with
  | Some s' =>
      match m.2 with
      | Returned a => Q a s'
      | Raised e => E e s'
      end
  | None => False
  end.
End Monitor.

(** Has the volume been saved to [out]?  A removal before that is a
    violation. *)
Definition scratch_monitor (out : string) (saved : bool) (e : event) : option bool :=
  match e with
  | Done (Nib_save q) => Some (saved || bool_decide (q = out))
  | Call (Os_remove _) => if saved then Some saved else None
  | _ => Some saved
  end.



(** Has [build_new_affine] been called?  Nothing follows the call, and
    no resampling precedes it. *)
Inductive progress : Type := Before | At_call.

Definition call_monitor (s : progress) (e : event) : option progress :=
  match s, e with
  | Before, Call Build_new_affine => Some At_call
  | Before, Call Resample_nifti => None
  | Before, Done Build_new_affine => None
  | Before, _ => Some Before
  | At_call, _ => None
  end.




(** *** Concrete collaborators *)

(** Every collaborator succeeds; the resampler used a scratch file, which
    exists; no streamline survives. *)
Definition everything_works : collaborators unit := {|
  import_gpu_libraries := Returned tt;
  nib_load := fun _ =>
    Returned (Nifti_image TransformSpec.unit_affine [10; 10; 10]%Z [1; 1; 1] tt);
  resample_nifti := fun _ _ _ _ _ _ _ => Returned (tt, Some "scratch.dat");
  data_shape := fun _ => [116; 140; 96]%Z;
  xp_max_axis1 := fun v => v;
  xp_mean_axis1 := fun v => v;
  newaxis := fun v => v;
  asnumpy := fun v => v;
  nib_save := fun _ _ _ => Returned tt;
  path_exists := fun _ => true;
  os_remove := fun _ => Returned tt;
  streamlines_load := fun _ => Returned (Trk_file [] (Trk_header [] [] []));
  transform_and_densify_streamlines := fun _ _ _ _ _ _ _ => Returned [];
  save_trk := fun _ _ _ _ => Returned tt
|}.

(** The GPU libraries are missing and no file can be loaded. *)
Definition nothing_loads : collaborators unit := {|
  import_gpu_libraries := Raised ImportError;
  nib_load := fun _ => Raised (OtherError "FileNotFoundError");
  resample_nifti := fun _ _ _ _ _ _ _ => Returned (tt, None);
  data_shape := fun _ => [];
  xp_max_axis1 := fun v => v;
  xp_mean_axis1 := fun v => v;
  newaxis := fun v => v;
  asnumpy := fun v => v;
  nib_save := fun _ _ _ => Returned tt;
  path_exists := fun _ => false;
  os_remove := fun _ => Returned tt;
  streamlines_load := fun _ => Raised (OtherError "FileNotFoundError");
  transform_and_densify_streamlines := fun _ _ _ _ _ _ _ => Returned [];
  save_trk := fun _ _ _ _ => Returned tt
|}.

(** A [build_new_affine] whose parameter list has [use_gpu]. *)
Definition accepting_use_gpu : build_new_affine_def :=
  Def (Transform.build_new_affine_signature ++ [Param "use_gpu" true])
      (fun _ _ _ _ _ => Returned (eye 4)).

(** The pipeline with the default arguments of the command line, importing
    [accepting_use_gpu] and the function of [transform.py]. *)
Definition run_accepting (w : collaborators unit) : prog unit :=
  process_and_save_importing accepting_use_gpu w "in.nii" "in.trk"
    (Transform.Scalar 1) [116; 140; 96]%Z "resampled" 8 None None true
    "hermite" 1 64.

Definition run_shipped (w : collaborators unit) : prog unit :=
  process_and_save w "in.nii" "in.trk"
    (Transform.Scalar 1) [116; 140; 96]%Z "resampled" 8 None None true
    "hermite" 1 64.

End Monitor.

(** ** What a log of the batch driver holds *)

Module DriverLog.
Import CompareInterpolation DriverSpec.

(** The environment the driver leaves behind when it has gone through [n]
    streamlines from index [idx] on. *)
Definition environ_after (env : gmap string string) (idx n : nat)
  : gmap string string :=
  match n with
  | O => env
  | S n' => <["DEBUG_TANGENTS" := flag (idx + n')]> env
  end.

(** The progress lines of a log: index and total. *)
Definition progress_lines {streamline diagnostic : Type}
    (log : list (event streamline diagnostic)) : list (nat * nat) :=
  omap (fun e => match e with
                 | Print_progress i n => Some (i, n)
                 | _ => None
                 end) log.

(** The lines of a log that report the scaled step size. *)
Definition scaled_step_lines {streamline diagnostic : Type}
    (log : list (event streamline diagnostic)) : list (R * R * R) :=
  omap (fun e => match e with
                 | Print_scaled_step scaled step voxel => Some (scaled, step, voxel)
                 | _ => None
                 end) log.

End DriverLog.

(** ** More monitors of the runs of the pipeline *)

Module PipelineMonitors.
Import Np Main Monitor.

(** The place of a call in a run. *)
Definition stage (op : operation) : nat :=
  match op with
  | Import_gpu_libraries => 1
  | Nib_load _ => 2
  | Build_new_affine => 3
  | Resample_nifti => 4
  | Nib_save _ => 5
  | Path_exists _ => 6
  | Os_remove _ => 7
  | Streamlines_load _ => 8
  | Transform_and_densify_streamlines => 9
  | Save_trk _ => 10
  end.

(** The stage of the last call; a call that is not of a later stage is a
    violation. *)
Definition order_monitor (s : nat) (e : event) : option nat :=
  match e with
  | Call op => if (s <? stage op)%nat then Some (stage op) else None
  | _ => Some s
  end.

(** Has the resampler returned?  Writing a file is a violation. *)
Inductive resampling : Type := Not_resampled | Resampled.

Definition reduction_monitor (s : resampling) (e : event) : option resampling :=
  match e with
  | Done Resample_nifti => Some Resampled
  | Call (Nib_save _) => None
  | Call (Save_trk _) => None
  | _ => Some s
  end.

(** Has the writer of the streamline file been called? *)
Definition trk_monitor (s : bool) (e : event) : option bool :=
  match e with
  | Call (Save_trk _) => Some true
  | _ => Some s
  end.

(** Has the volume been saved?  Loading the streamlines is a violation. *)
Definition exists_monitor (s : bool) (e : event) : option bool :=
  match e with
  | Done (Nib_save _) => Some true
  | Call (Streamlines_load _) => None
  | _ => Some s
  end.

Definition banner : string := "Process completed successfully".

(** How far a run has come: which files it has written, whether it has
    reported zero streamlines, whether it has printed the banner.  Nothing
    follows the banner, and the banner follows both files. *)
Inductive completion : Type :=
| Unsaved
| Volume_saved (nii : string)
| Zero_reported (nii : string)
| Both_saved (nii trk : string)
| Completed (nii trk : string).

Definition completion_monitor (s : completion) (e : event) : option completion :=
  match s, e with
  | Completed _ _, _ => None
  | Both_saved q p, Print line =>
      if String.eqb line banner then Some (Completed q p) else Some s
  | _, Print line => if String.eqb line banner then None else Some s
  | Unsaved, Done (Nib_save q) => Some (Volume_saved q)
  | Volume_saved q, Print_processed 0 => Some (Zero_reported q)
  | Volume_saved q, Done (Save_trk p) => Some (Both_saved q p)
  | _, _ => Some s
  end.

(** What a state of the completion monitor says of the trace read. *)
Definition reached (s : completion) (tr : list event) : Prop :=
  match s with
  | Unsaved => Print banner ∉ tr
  | Volume_saved q => Done (Nib_save q) ∈ tr ∧ Print banner ∉ tr
  | Zero_reported q =>
      Done (Nib_save q) ∈ tr ∧ Print_processed 0 ∈ tr ∧ Print banner ∉ tr
  | Both_saved q p =>
      Done (Nib_save q) ∈ tr ∧ Done (Save_trk p) ∈ tr ∧ Print banner ∉ tr
  | Completed q p =>
      Done (Nib_save q) ∈ tr ∧ Done (Save_trk p) ∈ tr
      ∧ last tr = Some (Print banner)
  end.

(** The pipeline with the default arguments of the command line and a
    reduction method, importing [accepting_use_gpu]. *)
Definition run_reducing (w : collaborators unit) (method : string) : prog unit :=
  process_and_save_importing accepting_use_gpu w "in.nii" "in.trk"
    (Transform.Scalar 1) [116; 140; 96]%Z "resampled" 8 None (Some method) true
    "hermite" 1 64.

(** Every collaborator succeeds; two streamlines are loaded and come back. *)
Definition streamlines_survive : collaborators unit := {|
  import_gpu_libraries := Raised ImportError;
  nib_load := fun _ =>
    Returned (Nifti_image TransformSpec.unit_affine [10; 10; 10]%Z [1; 1; 1] tt);
  resample_nifti := fun _ _ _ _ _ _ _ => Returned (tt, Some "scratch.dat");
  data_shape := fun _ => [116; 140; 96]%Z;
  xp_max_axis1 := fun v => v;
  xp_mean_axis1 := fun v => v;
  newaxis := fun v => v;
  asnumpy := fun v => v;
  nib_save := fun _ _ _ => Returned tt;
  path_exists := fun _ => false;
  os_remove := fun _ => Returned tt;
  streamlines_load := fun _ =>
    Returned (Trk_file [[(0, 0, 0); (1, 0, 0)]; [(0, 1, 0); (1, 1, 0)]]
                (Trk_header [] [] []));
  transform_and_densify_streamlines := fun s _ _ _ _ _ _ => Returned s;
  save_trk := fun _ _ _ _ => Returned tt
|}.

(** The resampler kept no scratch file. *)
Definition no_scratch_file : collaborators unit := {|
  import_gpu_libraries := Returned tt;
  nib_load := fun _ =>
    Returned (Nifti_image TransformSpec.unit_affine [10; 10; 10]%Z [1; 1; 1] tt);
  resample_nifti := fun _ _ _ _ _ _ _ => Returned (tt, None);
  data_shape := fun _ => [116; 140; 96]%Z;
  xp_max_axis1 := fun v => v;
  xp_mean_axis1 := fun v => v;
  newaxis := fun v => v;
  asnumpy := fun v => v;
  nib_save := fun _ _ _ => Returned tt;
  path_exists := fun _ => false;
  os_remove := fun _ => Returned tt;
  streamlines_load := fun _ => Returned (Trk_file [] (Trk_header [] [] []));
  transform_and_densify_streamlines := fun s _ _ _ _ _ _ => Returned s;
  save_trk := fun _ _ _ _ => Returned tt
|}.

End PipelineMonitors.

(** ** The comparison script *)

Module ComparisonSpec.
Import CompareInterpolation DriverSpec Comparison.

(** The densifier raises on every call for [method]. *)
Definition method_fails {streamline diagnostic : Type}
    (densify : gmap string string → streamline → R → bool → string → R →
               list diagnostic * result streamline)
    (method : string) : Prop :=
  ∀ env stream step use_gpu voxel,
    ∃ e, (densify env stream step use_gpu method voxel).2 = Raised e.

(** Two environments that differ at most in [DEBUG_TANGENTS]. *)
Definition same_but_flag (env1 env0 : gmap string string) : Prop :=
  ∀ v, <["DEBUG_TANGENTS" := v]> env1 = <["DEBUG_TANGENTS" := v]> env0.

Section Spec.
Context {streamline diagnostic : Type}.

(** The post-condition [Q] holds of the process and the result that [m]
    ends with. *)
Definition ends_with {A : Type} (m : prog (streamline := streamline)
                                   (diagnostic := diagnostic) A)
    (p : process streamline diagnostic)
    (Q : process streamline diagnostic → result A → Prop) : Prop :=
  Q (m p).1 (m p).2.

(** Two runs of [m], the first in a process that has written [pre] more
    and whose environment may differ in the flag, end alike. *)
Definition alike (pre : list (item streamline diagnostic))
    (p1 p0 : process streamline diagnostic) : Prop :=
  written p1 = pre ++ written p0
  ∧ same_but_flag (os_environ p1) (os_environ p0).

Definition flag_blind (pre : list (item streamline diagnostic)) {A : Type}
    (m : prog (streamline := streamline) (diagnostic := diagnostic) A) : Prop :=
  ∀ p1 p0, alike pre p1 p0 →
    alike pre (m p1).1 (m p0).1 ∧ (m p1).2 = (m p0).2.
End Spec.

(** A densifier that always raises, and one that returns its input. *)
Definition failing_densifier (_ : gmap string string) (_ : unit) (_ : R)
    (_ : bool) (_ : string) (_ : R) : list unit * result unit :=
  ([], Raised (ValueError "unknown interpolation method")).

Definition three_streamlines : collaborators unit := {|
  nib_streamlines_load := fun _ => Returned (Trk_data [tt; tt; tt] (Some [1; 1; 1]));
  calculate_streamline_metrics := fun _ => Returned ∅;
  visualize_comparison := fun _ _ => Returned tt;
  plot_metrics_comparison := fun _ _ => Returned tt
|}.

Definition short_header : collaborators unit := {|
  nib_streamlines_load := fun _ => Returned (Trk_data [tt; tt; tt] (Some [1; 1]));
  calculate_streamline_metrics := fun _ => Returned ∅;
  visualize_comparison := fun _ _ => Returned tt;
  plot_metrics_comparison := fun _ _ => Returned tt
|}.

End ComparisonSpec.

(** * Proofs *)

(** ** The affine builder *)

Module TransformProofs.
Import Np Transform TransformSpec Main.

Lemma fdiv_Fin a b : b ≠ 0 → fdiv (Fin a) (Fin b) = Fin (a / b).
Proof. intros H. unfold fdiv. destruct (Req_dec_T b 0); [contradiction|reflexivity]. Qed.

Lemma fsqrt_Fin a : 0 <= a → fsqrt (Fin a) = Fin (sqrt a).
Proof. intros H. unfold fsqrt. destruct (Rlt_dec a 0); [lra|reflexivity]. Qed.

Lemma fdiv_2 a : fdiv (Fin a) (Fin 2) = Fin (a / 2).
Proof. apply fdiv_Fin. lra. Qed.

Lemma sum_sq_nonneg a b c : 0 <= a * a + (b * b + (c * c + 0)).
Proof. nra. Qed.

Lemma column_norm_eq a b c :
  sqrt (a * a + (b * b + (c * c + 0))) = sqrt (a * a + b * b + c * c).
Proof. f_equal. ring. Qed.

Ltac rows_of_length4 :=
  repeat match goal with
  | H : length ?row = 4%nat |- _ =>
      destruct row as [|? [|? [|? [|? [|]]]]]; try discriminate H; clear H
  end.

Ltac concrete_input H :=
  let Ha := fresh "Ha" in let Hn := fresh "Hn" in
  let Hos := fresh "Hos" in let Hvs := fresh "Hvs" in
  let Hns := fresh "Hns" in let Hpc := fresh "Hpc" in
  destruct H as [Ha Hn Hos Hvs Hns Hpc];
  pose proof (Hn 0%nat ltac:(lia));
  pose proof (Hn 1%nat ltac:(lia));
  pose proof (Hn 2%nat ltac:(lia));
  clear Hn;
  match type of Ha with is_affine ?M =>
    let HL := fresh "HL" in let HF := fresh "HF" in
    destruct Ha as [HL HF];
    destruct M as [|? [|? [|? [|? [|]]]]]; try discriminate HL; clear HL;
    repeat (apply Forall_cons_1 in HF; destruct HF as [? HF]); clear HF;
    rows_of_length4
  end;
  match type of Hos with length ?l = _ =>
    destruct l as [|? [|? [|? [|]]]]; try discriminate Hos; clear Hos end;
  match type of Hns with length ?l = _ =>
    destruct l as [|? [|? [|? [|]]]]; try discriminate Hns; clear Hns end;
  match type of Hvs with length (requested ?vs) = _ =>
    destruct (requested vs) as [|? [|? [|? [|]]]]; try discriminate Hvs;
    clear Hvs end;
  match type of Hpc with ∀ p, ?pc = _ → _ =>
    destruct pc as [[|? [|? [|? [|]]]]|];
    try (specialize (Hpc _ eq_refl); discriminate Hpc); clear Hpc end.

(** On valid input the builder returns, and what it returns is
    [new_affine]. *)
Lemma build_new_affine_returns old_affine old_shape vs new_shape pc :
  valid_input old_affine old_shape vs new_shape pc →
  build_new_affine old_affine old_shape vs new_shape pc
  = Returned (map array (new_affine old_affine old_shape vs new_shape pc)).
Proof.
  intros H.
  unfold new_affine, new_translation, new_linear, scale_factor, chosen_center.
  unfold build_new_affine. fold (requested vs).
  concrete_input H; unfold column_norm, entry in *; cbn [nth] in *;
    cbn -[fdiv fsqrt];
    rewrite !fsqrt_Fin by apply sum_sq_nonneg;
    rewrite !column_norm_eq;
    cbn -[fdiv fsqrt];
    rewrite !fdiv_2;
    rewrite !fdiv_Fin by assumption;
    cbn -[fdiv fsqrt];
    repeat (f_equal; try ring).
Qed.

(** C1.  On valid input (a 4x4 old affine whose linear part has no zero
    column, 3-length shapes, a scalar or 3-length voxel size), the affine
    that [build_new_affine] returns maps the center voxel index of the new
    grid, [(new_shape - 1) / 2] in homogeneous coordinates, to the chosen
    physical center: [patch_center_mm] when given, else the old affine
    applied to [(old_shape - 1) / 2].  Over exact arithmetic the two are
    equal. *)
Theorem center_preserved old_affine old_shape vs new_shape pc :
  valid_input old_affine old_shape vs new_shape pc →
  ∃ A_new,
    build_new_affine old_affine old_shape vs new_shape pc = Returned A_new
    ∧ matvec A_new (hstack (array (center_index new_shape)) (Fin 1))
      = Returned (hstack (array (chosen_center old_affine old_shape pc)) (Fin 1)).
Proof.
  intros H. eexists. split; [by apply build_new_affine_returns|].
  unfold new_affine, new_translation, new_linear, scale_factor.
  concrete_input H.
  - cbn. repeat (f_equal; try ring).
  - cbn. repeat (f_equal; try ring).
Qed.

Lemma rescaled_column_norm a b c v :
  sqrt (a * a + b * b + c * c) ≠ 0 →
  sqrt (a * (v / sqrt (a * a + b * b + c * c)) * (a * (v / sqrt (a * a + b * b + c * c)))
        + (b * (v / sqrt (a * a + b * b + c * c)) * (b * (v / sqrt (a * a + b * b + c * c)))
           + (c * (v / sqrt (a * a + b * b + c * c)) * (c * (v / sqrt (a * a + b * b + c * c)))
              + 0)))
  = Rabs v.
Proof.
  set (n := sqrt (a * a + b * b + c * c)). intros Hn.
  assert (Hnn : n * n = a * a + b * b + c * c) by (apply sqrt_sqrt; nra).
  rewrite <- sqrt_Rsqr_abs. f_equal. unfold Rsqr.
  transitivity (v / n * (v / n) * (n * n)).
  - rewrite Hnn. ring.
  - by field.
Qed.

(** C4.  On valid input, the linear 3x3 part of the returned affine is
    [old_linear @ diag(scale_factor)], with the scale factor of an axis
    the desired voxel size over the column norm of the old linear part:
    entry [(i, j)] is the old entry times that factor. *)
Theorem linear_part_rescaled old_affine old_shape vs new_shape pc :
  valid_input old_affine old_shape vs new_shape pc →
  ∃ A_new,
    build_new_affine old_affine old_shape vs new_shape pc = Returned A_new
    ∧ matmul (slice2 3 3 (map array old_affine))
             (diag (array (map (scale_factor old_affine vs) [0; 1; 2]%nat)))
      = Returned (slice2 3 3 A_new)
    ∧ ∀ i j, (i < 3)%nat → (j < 3)%nat →
        nth j (nth i A_new []) NonFinite
        = Fin (entry old_affine i j
               * (nth j (requested vs) 0 / column_norm old_affine j)).
Proof.
  intros H. eexists. split; [by apply build_new_affine_returns|].
  unfold new_affine, new_translation, new_linear, scale_factor.
  split.
  - concrete_input H; cbn; repeat (f_equal; try ring).
  - intros i j Hi Hj.
    destruct i as [|[|[|i]]]; [| | |lia];
      (destruct j as [|[|[|j]]]; [| | |lia]); reflexivity.
Qed.

Lemma map_Rabs_nonneg (l : list R) :
  Forall (fun v => 0 <= v) l → map Rabs l = l.
Proof.
  induction 1 as [|v l Hv _ IH]; [reflexivity|].
  cbn [map]. rewrite IH. f_equal. by apply Rabs_pos_eq.
Qed.

Lemma new_voxsize_new_affine old_affine old_shape vs new_shape pc :
  valid_input old_affine old_shape vs new_shape pc →
  new_voxsize (map array (new_affine old_affine old_shape vs new_shape pc))
  = array (map Rabs (requested vs)).
Proof.
  intros H.
  unfold new_affine, new_translation, new_linear, scale_factor.
  concrete_input H; unfold column_norm, entry in *; cbn [nth] in *;
    cbn -[fsqrt];
    rewrite !fsqrt_Fin by nra;
    rewrite !rescaled_column_norm by assumption; reflexivity.
Qed.

(** C5, amended.  On valid input, the column norms of the linear part
    of the returned affine are the absolute values of the requested voxel
    sizes; they are the requested voxel sizes when these are not
    negative. *)
Theorem column_norms_abs old_affine old_shape vs new_shape pc :
  valid_input old_affine old_shape vs new_shape pc →
  ∃ A_new,
    build_new_affine old_affine old_shape vs new_shape pc = Returned A_new
    ∧ new_voxsize A_new = array (map Rabs (requested vs))
    ∧ (Forall (fun v => 0 <= v) (requested vs) →
       new_voxsize A_new = array (requested vs)).
Proof.
  intros H. eexists. split; [by apply build_new_affine_returns|].
  split; [by apply new_voxsize_new_affine|].
  intros Hpos. rewrite new_voxsize_new_affine by done.
  by rewrite map_Rabs_nonneg.
Qed.

(** C6.  A scalar voxel size [s] gives the same result, whatever the
    other arguments, as the triple [(s, s, s)]. *)
Theorem scalar_voxel_size_isotropic old_affine old_shape (s : R) new_shape pc :
  build_new_affine old_affine old_shape (Scalar s) new_shape pc
  = build_new_affine old_affine old_shape (Tuple [s; s; s]) new_shape pc.
Proof. reflexivity. Qed.

Lemma sqrt_nonzero x : 0 < x → sqrt x ≠ 0.
Proof. intros H. apply Rgt_not_eq. by apply sqrt_lt_R0. Qed.

Lemma is_affine_4x4 (r0 r1 r2 r3 : list R) :
  length r0 = 4%nat → length r1 = 4%nat → length r2 = 4%nat → length r3 = 4%nat →
  is_affine [r0; r1; r2; r3].
Proof. intros. split; [reflexivity|]. by repeat constructor. Qed.

Lemma two_mm_valid :
  valid_input two_mm_affine [5; 5; 5]%Z (Scalar 1) [9; 9; 9]%Z None.
Proof.
  split; try reflexivity; try discriminate.
  - by apply is_affine_4x4.
  - intros j Hj. destruct j as [|[|[|j]]]; [| | |lia];
      unfold column_norm, entry; cbn [nth two_mm_affine];
      apply sqrt_nonzero; lra.
Qed.

Lemma unit_negative_valid :
  valid_input unit_affine [3; 3; 3]%Z (Scalar (-1)) [3; 3; 3]%Z None.
Proof.
  split; try reflexivity; try discriminate.
  - by apply is_affine_4x4.
  - intros j Hj. destruct j as [|[|[|j]]]; [| | |lia];
      unfold column_norm, entry; cbn [nth unit_affine];
      apply sqrt_nonzero; lra.
Qed.

(** C1 at the 2 mm affine. *)
Lemma center_preserved_witness :
  valid_input two_mm_affine [5; 5; 5]%Z (Scalar 1) [9; 9; 9]%Z None
  ∧ ∃ A_new,
      build_new_affine two_mm_affine [5; 5; 5]%Z (Scalar 1) [9; 9; 9]%Z None
      = Returned A_new
      ∧ matvec A_new (hstack (array (center_index [9; 9; 9]%Z)) (Fin 1))
        = Returned (hstack (array (chosen_center two_mm_affine [5; 5; 5]%Z None))
                      (Fin 1)).
Proof.
  split; [exact two_mm_valid|].
  exact (center_preserved _ _ _ _ _ two_mm_valid).
Defined.

(** C4 at the 2 mm affine. *)
Lemma linear_part_rescaled_witness :
  valid_input two_mm_affine [5; 5; 5]%Z (Scalar 1) [9; 9; 9]%Z None
  ∧ ∃ A_new,
      build_new_affine two_mm_affine [5; 5; 5]%Z (Scalar 1) [9; 9; 9]%Z None
      = Returned A_new
      ∧ nth 0 (nth 0 A_new []) NonFinite
        = Fin (entry two_mm_affine 0 0
               * (nth 0 (requested (Scalar 1)) 0 / column_norm two_mm_affine 0)).
Proof.
  split; [exact two_mm_valid|].
  destruct (linear_part_rescaled _ _ _ _ _ two_mm_valid) as (A & HA & _ & Hij).
  exists A. split; [exact HA|]. apply Hij; lia.
Defined.

(** C5 (amended) at the 2 mm affine. *)
Lemma column_norms_abs_witness :
  valid_input two_mm_affine [5; 5; 5]%Z (Scalar 1) [9; 9; 9]%Z None
  ∧ Forall (fun v => 0 <= v) (requested (Scalar 1))
  ∧ ∃ A_new,
      build_new_affine two_mm_affine [5; 5; 5]%Z (Scalar 1) [9; 9; 9]%Z None
      = Returned A_new
      ∧ new_voxsize A_new = array (requested (Scalar 1)).
Proof.
  split; [exact two_mm_valid|].
  assert (Hpos : Forall (fun v => 0 <= v) (requested (Scalar 1)))
    by (repeat constructor; lra).
  split; [exact Hpos|].
  destruct (column_norms_abs _ _ _ _ _ two_mm_valid) as (A & HA & _ & Himp).
  exists A. split; [exact HA|exact (Himp Hpos)].
Defined.

(** C5 as stated fails: with the unit affine and a voxel size of -1, the
    column norms of the returned affine are 1, not -1. *)
Lemma column_norms_negative_size :
  valid_input unit_affine [3; 3; 3]%Z (Scalar (-1)) [3; 3; 3]%Z None
  ∧ ∃ A_new,
      build_new_affine unit_affine [3; 3; 3]%Z (Scalar (-1)) [3; 3; 3]%Z None
      = Returned A_new
      ∧ new_voxsize A_new = array [1; 1; 1]
      ∧ new_voxsize A_new ≠ array (requested (Scalar (-1))).
Proof.
  split; [exact unit_negative_valid|].
  eexists. split; [exact (build_new_affine_returns _ _ _ _ _ unit_negative_valid)|].
  rewrite (new_voxsize_new_affine _ _ _ _ _ unit_negative_valid).
  cbn [requested map array].
  replace (Rabs (-1)) with 1 by (rewrite Rabs_left; lra).
  split; [reflexivity|]. intros [= H]. lra.
Qed.

End TransformProofs.

(** ** The batch driver and the densifier *)

Module DriverProofs.
Import CompareInterpolation DriverSpec.

Section Proofs.
Context {streamline diagnostic : Type}.
Variable densify :
  gmap string string → streamline → R → bool → string → R →
  list diagnostic * result streamline.

Abbreviation event := (event streamline diagnostic).
Abbreviation state := (state streamline diagnostic).

Lemma calls_app (l1 l2 : list event) : calls (l1 ++ l2) = calls l1 ++ calls l2.
Proof. apply omap_app. Qed.

Lemma errors_app (l1 l2 : list event) : errors (l1 ++ l2) = errors l1 ++ errors l2.
Proof. apply omap_app. Qed.

Lemma calls_output (ds : list diagnostic) :
  calls (map (@Densifier_output streamline diagnostic) ds) = [].
Proof. induction ds; [reflexivity|assumption]. Qed.

Lemma errors_output (ds : list diagnostic) :
  errors (map (@Densifier_output streamline diagnostic) ds) = [].
Proof. induction ds; [reflexivity|assumption]. Qed.

Lemma expected_calls_rebase env x step method voxel use_gpu idx
    (l : list streamline) :
  expected_calls (<["DEBUG_TANGENTS" := x]> env) step method voxel use_gpu idx l
  = expected_calls env step method voxel use_gpu idx l.
Proof.
  unfold expected_calls. revert idx.
  induction l as [|s l IH]; intros idx; [reflexivity|].
  cbn [length seq zip_with]. rewrite IH. f_equal.
  unfold call_at. by rewrite insert_insert_eq.
Qed.

Lemma scaled_step (step voxel : R) : step * (voxel / 1) = step * voxel.
Proof. field. Qed.

Lemma successes_cons c (cs : list (call streamline)) :
  successes densify (c :: cs)
  = match outcome densify c with
    | Returned d => d :: successes densify cs
    | Raised _ => successes densify cs
    end.
Proof. unfold successes. cbn. by destruct (outcome densify c). Qed.

Lemma failures_cons c (cs : list (call streamline)) :
  failures densify (c :: cs)
  = match outcome densify c with
    | Returned _ => failures densify cs
    | Raised e => (call_idx c, e) :: failures densify cs
    end.
Proof. unfold failures. cbn. by destruct (outcome densify c). Qed.

Lemma loop_spec n step method voxel use_gpu (l : list streamline) :
  ∀ idx (st : state) acc,
    let r := loop densify n step method voxel use_gpu idx l st acc in
    let cs := expected_calls (environ st) step method voxel use_gpu idx l in
    calls (stdout r.1) = calls (stdout st) ++ cs
    ∧ r.2 = acc ++ successes densify cs
    ∧ errors (stdout r.1) = errors (stdout st) ++ failures densify cs.
Proof.
  induction l as [|s l IH]; intros idx st acc.
  - cbn. by rewrite !app_nil_r.
  - cbn zeta. cbn [loop].
    set (st1 := if (idx mod 50 =? 0)%nat then _ else st).
    set (st2 := setenv _ _ st1).
    set (st3 := if (idx <? 5)%nat then _ else st2).
    set (c := Call_densify _ _ _ _ _ _ _).
    set (st4 := print c st3).
    set (out := densify _ _ _ _ _ _).
    set (st5 := print_all _ st4).
    assert (Henv : environ st5 = <["DEBUG_TANGENTS" := flag idx]> (environ st)).
    { subst st5 st4 st3 st2 st1. unfold flag.
      destruct (idx mod 50 =? 0)%nat, (idx <? 5)%nat; reflexivity. }
    assert (Hc : calls (stdout st5)
                 = calls (stdout st)
                   ++ [call_at (environ st) step method voxel use_gpu idx s]).
    { subst st5 st4 c. cbn [print_all print stdout].
      rewrite !calls_app, calls_output, app_nil_r. cbn [calls omap].
      replace (environ st3) with (<["DEBUG_TANGENTS" := flag idx]> (environ st))
        by (rewrite <- Henv; reflexivity).
      rewrite scaled_step. f_equal.
      subst st3 st2 st1. unfold flag.
      destruct (idx mod 50 =? 0)%nat, (idx <? 5)%nat;
        cbn [print setenv stdout]; rewrite ?calls_app, ?app_nil_r; reflexivity. }
    assert (He : errors (stdout st5) = errors (stdout st)).
    { subst st5 st4 c st3 st2 st1.
      destruct (idx mod 50 =? 0)%nat, (idx <? 5)%nat;
        cbn [print_all print setenv stdout];
        rewrite !errors_app, errors_output; cbn [errors omap];
        rewrite ?app_nil_r; reflexivity. }
    assert (Ho : outcome densify (call_at (environ st) step method voxel use_gpu idx s)
                 = out.2).
    { unfold outcome, call_at. cbn. subst out. rewrite scaled_step.
      replace (environ st4) with (environ st5) by reflexivity.
      by rewrite Henv. }
    unfold expected_calls. cbn [length seq zip_with].
    fold (expected_calls (environ st) step method voxel use_gpu (S idx) l).
    rewrite successes_cons, failures_cons, Ho.
    destruct (out.2) as [d|e].
    + destruct (IH (S idx) st5 (acc ++ [d])) as (IH1 & IH2 & IH3).
      rewrite Henv, expected_calls_rebase in IH1, IH2, IH3.
      rewrite IH1, IH2, IH3, Hc, He, <- !app_assoc. done.
    + destruct (IH (S idx) (print (Print_error idx e) st5) acc) as (IH1 & IH2 & IH3).
      cbn [print environ stdout] in IH1, IH2, IH3.
      rewrite Henv, expected_calls_rebase in IH1, IH2, IH3.
      rewrite calls_app in IH1. rewrite errors_app in IH3.
      cbn [calls errors omap] in IH1, IH3. rewrite app_nil_r in IH1.
      rewrite IH1, IH2, IH3, Hc, He, <- !app_assoc. done.
Qed.

Lemma successes_length (cs : list (call streamline)) :
  (length (successes densify cs) ≤ length cs)%nat.
Proof.
  induction cs as [|c cs IH]; [done|].
  rewrite successes_cons.
  destruct (outcome densify c); cbn [length]; lia.
Qed.

Lemma expected_calls_length env step method voxel use_gpu idx
    (l : list streamline) :
  length (expected_calls env step method voxel use_gpu idx l) = length l.
Proof.
  unfold expected_calls. revert idx.
  induction l as [|s l IH]; intros idx; [done|].
  cbn [length seq zip_with]. by rewrite IH.
Qed.

Lemma driver_spec (streamlines : list streamline) step method voxel use_gpu
    (st : state) :
  let r := process_streamlines_with_method densify streamlines step method
             voxel use_gpu st in
  let cs := expected_calls (environ st) step method voxel use_gpu 0 streamlines in
  calls (stdout r.1) = calls (stdout st) ++ cs
  ∧ r.2 = successes densify cs
  ∧ errors (stdout r.1) = errors (stdout st) ++ failures densify cs
  ∧ last (stdout r.1)
    = Some (Print_processed (length r.2) (length streamlines) method).
Proof.
  cbn zeta. unfold process_streamlines_with_method.
  set (st0 := print _ st).
  destruct (loop_spec (length streamlines) step method voxel use_gpu
              streamlines 0 st0 []) as (H1 & H2 & H3).
  cbn zeta in H1, H2, H3. cbn [fst snd].
  replace (environ st0) with (environ st) in * by reflexivity.
  subst st0. cbn [print stdout] in *.
  rewrite calls_app in H1. rewrite errors_app in H3.
  cbn [calls errors omap list_omap] in H1, H3. rewrite app_nil_r in H1, H3.
  split; [|split; [|split]].
  - by rewrite calls_app, H1, app_nil_r.
  - by rewrite H2.
  - by rewrite errors_app, H3, app_nil_r.
  - by rewrite last_snoc.
Qed.

Lemma expected_calls_idx env step method voxel use_gpu idx
    (l : list streamline) :
  map call_idx (expected_calls env step method voxel use_gpu idx l)
  = seq idx (length l).
Proof.
  unfold expected_calls. revert idx.
  induction l as [|s l IH]; intros idx; [done|].
  cbn [length seq zip_with map]. by rewrite IH.
Qed.

Lemma expected_calls_stream env step method voxel use_gpu idx
    (l : list streamline) :
  map call_stream (expected_calls env step method voxel use_gpu idx l) = l.
Proof.
  unfold expected_calls. revert idx.
  induction l as [|s l IH]; intros idx; [done|].
  cbn [length seq zip_with map]. by rewrite IH.
Qed.

Lemma expected_calls_Forall (P : call streamline → Prop) env step method voxel
    use_gpu idx (l : list streamline) :
  (∀ i s, P (call_at env step method voxel use_gpu i s)) →
  Forall P (expected_calls env step method voxel use_gpu idx l).
Proof.
  intros HP. unfold expected_calls. revert idx.
  induction l as [|s l IH]; intros idx; cbn [length seq zip_with]; auto.
Qed.

(** C7.  Whatever the densifier does, the driver calls it once per
    streamline, in input order and with the index of the streamline; a
    call that raises is skipped and its exception is printed with that
    index, and the loop goes on: the returned list is the list of the
    streamlines of the calls that returned, in input order, it is not
    longer than the input, the failures printed are those of the calls
    that raised, and the last line printed counts the successes. *)
Theorem skip_and_log (streamlines : list streamline) step method voxel use_gpu
    (st : state) :
  let r := process_streamlines_with_method densify streamlines step method
             voxel use_gpu st in
  ∃ cs,
    calls (stdout r.1) = calls (stdout st) ++ cs
    ∧ map call_idx cs = seq 0 (length streamlines)
    ∧ map call_stream cs = streamlines
    ∧ r.2 = successes densify cs
    ∧ (length r.2 ≤ length streamlines)%nat
    ∧ errors (stdout r.1) = errors (stdout st) ++ failures densify cs
    ∧ last (stdout r.1)
      = Some (Print_processed (length r.2) (length streamlines) method).
Proof.
  cbn zeta.
  destruct (driver_spec streamlines step method voxel use_gpu st)
    as (H1 & H2 & H3 & H4).
  eexists. split; [exact H1|].
  split; [apply expected_calls_idx|].
  split; [apply expected_calls_stream|].
  split; [exact H2|]. split; [|split; [exact H3|exact H4]].
  rewrite H2.
  rewrite <- (expected_calls_length (environ st) step method voxel use_gpu 0 streamlines).
  apply successes_length.
Qed.

(** C3, amended.  The step size that every call of the densifier
    receives is [step_size * (voxel_size / 1.0)], the configured step
    size multiplied by the voxel size. *)
Theorem step_size_multiplied (streamlines : list streamline) step method voxel
    use_gpu (st : state) :
  let r := process_streamlines_with_method densify streamlines step method
             voxel use_gpu st in
  ∃ cs,
    calls (stdout r.1) = calls (stdout st) ++ cs
    ∧ length cs = length streamlines
    ∧ Forall (fun c => call_step_size c = step * voxel) cs.
Proof.
  cbn zeta.
  destruct (driver_spec streamlines step method voxel use_gpu st) as (H1 & _).
  eexists. split; [exact H1|]. split; [apply expected_calls_length|].
  by apply expected_calls_Forall.
Qed.
End Proofs.

Section Noninterference.
Import Densify.

Lemma subpoint_debug debug hermite stream i n k :
  (subpoint debug hermite stream i n k).2
  = (subpoint false hermite stream i n k).2.
Proof. unfold subpoint. by destruct hermite. Qed.

Lemma segment_debug debug hermite stream step i :
  (segment debug hermite stream step i).2
  = (segment false hermite stream step i).2.
Proof.
  unfold segment.
  induction (seq 1 _) as [|k ks IH]; [done|].
  cbn [foldr snd]. by rewrite IH, subpoint_debug.
Qed.

Lemma densify_debug debug hermite stream step :
  (densify debug hermite stream step).2
  = (densify false hermite stream step).2.
Proof.
  unfold densify. cbn [snd]. f_equal.
  induction (seq 0 _) as [|i l IH]; [done|].
  cbn [foldr snd]. by rewrite IH, segment_debug.
Qed.

Lemma densifier_ignores_environ env env' stream step use_gpu method voxel :
  (densify_streamline_subvoxel env stream step use_gpu method voxel).2
  = (densify_streamline_subvoxel env' stream step use_gpu method voxel).2.
Proof.
  unfold densify_streamline_subvoxel.
  destruct (length stream <? 2)%nat; [done|].
  destruct (String.eqb method "linear");
    [cbn [snd]; f_equal;
     by rewrite densify_debug, (densify_debug (debug_tangents env'))|].
  destruct (String.eqb method "hermite"); [|done].
  cbn [snd]. f_equal.
  by rewrite densify_debug, (densify_debug (debug_tangents env')).
Qed.

Lemma successes_ignore_environ env env' step method voxel use_gpu idx
    (l : list streamline) :
  successes densify_streamline_subvoxel
    (expected_calls env step method voxel use_gpu idx l)
  = successes densify_streamline_subvoxel
      (expected_calls env' step method voxel use_gpu idx l).
Proof.
  unfold expected_calls. revert idx.
  induction l as [|s l IH]; intros idx; [done|].
  cbn [length seq zip_with]. rewrite !successes_cons, IH.
  unfold outcome, call_at. cbn.
  by rewrite (densifier_ignores_environ _ (<["DEBUG_TANGENTS":=flag idx]> env')).
Qed.

Lemma flag_lookup {A} env step method voxel use_gpu i (s : A) :
  call_environ (call_at env step method voxel use_gpu i s) !! "DEBUG_TANGENTS"
  = Some (if (call_idx (call_at env step method voxel use_gpu i s) <? 5)%nat
          then "1" else "0").
Proof. unfold call_at, flag. cbn. by rewrite lookup_insert_eq. Qed.

(** C10.  For every densifier, the driver sets [DEBUG_TANGENTS] to "1"
    for the calls of index below 5 and to "0" for the others; the points
    that the densifier of the specification returns do not depend on
    the environment, hence not on the flag; and two runs of the driver
    over it, started in any two process states, return the same
    streamlines. *)
Theorem debug_flag_noninterference :
  (∀ (streamline diagnostic : Type)
     (densify : gmap string string → streamline → R → bool → string → R →
                list diagnostic * result streamline)
     streamlines step method voxel use_gpu st,
     let r := process_streamlines_with_method densify streamlines step method
                voxel use_gpu st in
     ∃ cs,
       calls (stdout r.1) = calls (stdout st) ++ cs
       ∧ map call_idx cs = seq 0 (length streamlines)
       ∧ Forall (fun c => call_environ c !! "DEBUG_TANGENTS"
                          = Some (if (call_idx c <? 5)%nat then "1" else "0"))
           cs)
  ∧ (∀ env env' stream step use_gpu method voxel,
       (densify_streamline_subvoxel env stream step use_gpu method voxel).2
       = (densify_streamline_subvoxel env' stream step use_gpu method voxel).2)
  ∧ (∀ streamlines step method voxel use_gpu st st',
       (process_streamlines_with_method densify_streamline_subvoxel streamlines
          step method voxel use_gpu st).2
       = (process_streamlines_with_method densify_streamline_subvoxel streamlines
            step method voxel use_gpu st').2).
Proof.
  split; [|split].
  - intros streamline diagnostic densify streamlines step method voxel use_gpu st.
    cbn zeta.
    destruct (driver_spec densify streamlines step method voxel use_gpu st)
      as (H1 & _).
    eexists. split; [exact H1|]. split; [apply expected_calls_idx|].
    apply expected_calls_Forall. intros i s. apply (flag_lookup (A := streamline)).
  - apply densifier_ignores_environ.
  - intros streamlines step method voxel use_gpu st st'.
    destruct (driver_spec densify_streamline_subvoxel streamlines step method
                voxel use_gpu st) as (_ & -> & _).
    destruct (driver_spec densify_streamline_subvoxel streamlines step method
                voxel use_gpu st') as (_ & -> & _).
    apply successes_ignore_environ.
Qed.
End Noninterference.

(** C3 as stated fails: with a step size of 1 and a voxel size of 2 the
    densifier receives 2, not 1/2. *)
Lemma step_size_not_divided :
  let r := process_streamlines_with_method constant_densifier [tt] 1 "linear" 2
             false (State ∅ []) in
  map call_step_size (calls (stdout r.1)) = [1 * (2 / 1)]
  ∧ 1 * (2 / 1) ≠ 1 / 2.
Proof. split; [reflexivity|lra]. Qed.
End DriverProofs.

(** ** Rules of the monitors *)

Module MonitorFacts.
Import Main Monitor.

Section Rules.
Context {S : Type} (δ : S → event → option S).

Lemma run_app s l1 l2 :
  run δ s (l1 ++ l2) = match run δ s l1 with
                       | Some s' => run δ s' l2
                       | None => None
                       end.
Proof.
  revert s. induction l1 as [|e l1 IH]; intros s; [done|].
  cbn [app run]. destruct (δ s e); [apply IH|done].
Qed.

Lemma wp_run {A} (m : prog A) s Q E :
  wp δ m s Q E →
  ∃ s', run δ s m.1 = Some s'
        ∧ match m.2 with Returned a => Q a s' | Raised e => E e s' end.
Proof. unfold wp. destruct (run δ s m.1); [eauto|done]. Qed.

Lemma wp_seq {A B} (m : prog A) (k : A → prog B) s Q E :
  wp δ m s (fun a s' => wp δ (k a) s' Q E) E → wp δ (seq_ m k) s Q E.
Proof.
  unfold wp, seq_. destruct m as [tr [a|e]]; cbn [fst snd].
  - rewrite run_app. destruct (run δ s tr); [|done]. done.
  - done.
Qed.

Lemma wp_mono {A} (m : prog A) s (Q Q' : A → S → Prop) (E E' : exn → S → Prop) :
  wp δ m s Q E →
  (∀ a s', Q a s' → Q' a s') → (∀ e s', E e s' → E' e s') →
  wp δ m s Q' E'.
Proof.
  unfold wp. intros H HQ HE. destruct (run δ s m.1); [|done].
  destruct m.2; auto.
Qed.

Lemma wp_seq_with {A B} (I : A → S → Prop) (m : prog A) (k : A → prog B) s Q E :
  wp δ m s I E → (∀ a s', I a s' → wp δ (k a) s' Q E) → wp δ (seq_ m k) s Q E.
Proof. intros H HI. apply wp_seq. eapply wp_mono; eauto. Qed.

Lemma wp_ret {A} (a : A) s (Q : A → S → Prop) E : Q a s → wp δ (ret a) s Q E.
Proof. done. Qed.

Lemma wp_raise {A} e s (Q : A → S → Prop) (E : exn → S → Prop) :
  E e s → wp δ (raise e) s Q E.
Proof. done. Qed.

Lemma wp_emit ev s s' (Q : unit → S → Prop) E :
  δ s ev = Some s' → Q tt s' → wp δ ([ev], Returned tt) s Q E.
Proof. unfold wp. cbn. by intros ->. Qed.

Lemma wp_print line s s' (Q : unit → S → Prop) E :
  δ s (Print line) = Some s' → Q tt s' → wp δ (print line) s Q E.
Proof. apply wp_emit. Qed.

Lemma wp_call {A} op (r : result A) s s1 (Q : A → S → Prop) (E : exn → S → Prop) :
  δ s (Call op) = Some s1 →
  (∀ a, r = Returned a → ∃ s2, δ s1 (Done op) = Some s2 ∧ Q a s2) →
  (∀ e, r = Raised e → E e s1) →
  wp δ (call op r) s Q E.
Proof.
  intros H1 HQ HE. unfold wp, call. destruct r as [a|e]; cbn; rewrite H1.
  - destruct (HQ a eq_refl) as (s2 & -> & ?). done.
  - by apply HE.
Qed.

Lemma wp_neutral {A} (m : prog A) s (Q : A → S → Prop) E :
  wp δ m s (fun _ s' => s' = s) E → (∀ a, Q a s) → wp δ m s Q E.
Proof. intros H HQ. eapply wp_mono; [exact H| |done]. by intros a s' ->. Qed.

Lemma wp_when (b : bool) m s (Q : unit → S → Prop) E :
  (b = true → wp δ m s Q E) → (b = false → Q tt s) → wp δ (when b m) s Q E.
Proof. destruct b; cbn; auto. Qed.
End Rules.
End MonitorFacts.

(** ** The pipeline *)

Module MainProofs.
Import Np Main Monitor MonitorFacts.

Lemma saved_refl (b : bool) (q : string) : b || bool_decide (q = q) = true.
Proof. rewrite bool_decide_true by done. by destruct b. Qed.

Ltac wp_atom :=
  lazymatch goal with
  | |- wp _ (print _) _ _ _ => eapply wp_print; [reflexivity | cbv beta]
  | |- wp _ (ret _) _ _ _ => apply wp_ret
  | |- wp _ (raise _) _ _ _ => apply wp_raise
  | |- wp _ (call _ _) _ _ _ =>
      eapply wp_call;
        [ reflexivity
        | intros ? ?; eexists; split;
          [reflexivity | cbv beta; rewrite ?saved_refl]
        | intros ? ? ]
  | |- wp _ (pair (cons (Print_processed (length ?l)) nil) _) _ _ _ =>
      destruct l as [|? ?]; cbn [length Nat.eqb];
      (eapply wp_emit; [reflexivity | cbv beta])
  | |- wp _ (pair (cons _ nil) (Returned tt)) _ _ _ =>
      eapply wp_emit; [reflexivity | cbv beta]
  | |- wp _ (when _ _) _ _ _ => apply wp_when; intros ?
  | |- wp _ (index _ _) _ _ _ => unfold index
  | |- wp _ (int_div _) _ _ _ => unfold int_div
  | |- wp _ (os_path_exists _ _) _ _ _ => unfold os_path_exists
  | |- wp _ (if ?b then _ else _) _ _ _ => destruct b eqn:?
  | |- wp _ (match ?x with _ => _ end) _ _ _ => destruct x eqn:?
  end.

Ltac wp_go :=
  repeat lazymatch goal with
         | |- wp _ (seq_ _ _) _ _ _ => apply wp_seq
         | |- _ => wp_atom
         end.

(** A block that leaves the monitor where it is. *)
Ltac wp_skip :=
  apply wp_neutral; [wp_go; try reflexivity; try exact I | intros ?].

(** *** What the monitors guarantee *)

Lemma scratch_sound out tr :
  ∀ saved s, run (scratch_monitor out) saved tr = Some s →
  ∀ pre p post, tr = pre ++ Call (Os_remove p) :: post →
  saved = true ∨ Done (Nib_save out) ∈ pre.
Proof.
  induction tr as [|e tr IH]; intros saved s Hrun pre p post Htr.
  - by destruct pre.
  - cbn [run] in Hrun.
    destruct (scratch_monitor out saved e) as [saved'|] eqn:Hstep; [|done].
    destruct pre as [|e' pre]; simplify_eq/=.
    + left. by destruct saved.
    + destruct (IH _ _ Hrun _ _ _ eq_refl) as [->|Hin].
      * destruct e' as [| |op|op]; try destruct op; simplify_eq/=; auto;
          try (destruct saved; simplify_eq/=; by auto).
        destruct saved; [by left|right].
        cbn in Hstep. apply bool_decide_eq_true_1 in Hstep as ->. left.
      * right. by right.
Qed.





Lemma at_call_stuck tr s : run call_monitor At_call tr = Some s → tr = [] ∧ s = At_call.
Proof. destruct tr; cbn; [by intros [= <-]|done]. Qed.

Lemma call_sound tr :
  ∀ s, run call_monitor Before tr = Some s →
  (Call Resample_nifti ∉ tr)
  ∧ (Done Build_new_affine ∉ tr)
  ∧ match s with
    | At_call => last tr = Some (Call Build_new_affine)
    | Before => Call Build_new_affine ∉ tr
    end.
Proof.
  induction tr as [|e tr IH]; intros s Hrun.
  - cbn in Hrun. simplify_eq. repeat split; apply not_elem_of_nil.
  - cbn [run] in Hrun.
    destruct (call_monitor Before e) as [s'|] eqn:Hstep; [|done].
    destruct (decide (e = Call Build_new_affine)) as [->|Hne].
    + cbn in Hstep. simplify_eq.
      apply at_call_stuck in Hrun as [-> ->].
      repeat split; try done; by intros [=]%list_elem_of_singleton.
    + assert (s' = Before ∧ e ≠ Call Resample_nifti ∧ e ≠ Done Build_new_affine)
        as (-> & Hr & Hd).
      { destruct e as [| |op|op]; try destruct op; cbn in Hstep;
          repeat split; congruence. }
      destruct (IH _ Hrun) as (H1 & H2 & H3).
      split; [by apply not_elem_of_cons|]. split; [by apply not_elem_of_cons|].
      destruct s; [by apply not_elem_of_cons|].
      destruct tr; [done|exact H3].
Qed.


Section Runs.
Context {volume : Type}.
Variables (f : build_new_affine_def) (w : collaborators volume).
Variables (old_nifti_path old_trk_path : string)
  (new_voxel_size : Transform.voxel_size) (new_dim : list Z)
  (output_prefix : string) (n_jobs : Z) (patch_center : option (list R))
  (reduction_method : option string) (use_gpu : bool)
  (interp_method : string) (step_size : R) (max_output_gb : R).

Lemma wp_choose_array_library {S} (δ : S → event → option S) s
    (Q : bool → S → Prop) (E : exn → S → Prop) :
  δ s (Call Import_gpu_libraries) = Some s →
  δ s (Done Import_gpu_libraries) = Some s →
  (∀ line, δ s (Print line) = Some s) →
  (∀ b, Q b s) →
  (∀ e, use_gpu = true → import_gpu_libraries w = Raised e →
        e ≠ ImportError → E e s) →
  wp δ (choose_array_library w use_gpu) s Q E.
Proof.
  intros Hc Hd Hp HQ HE. unfold choose_array_library, except_ImportError.
  destruct use_gpu.
  - destruct (import_gpu_libraries w) as [[]|e] eqn:Hi;
      cbn [call seq_ fst snd print ret app].
    + unfold wp. cbn. rewrite Hc, Hd, Hp. apply HQ.
    + destruct e; unfold wp; cbn; rewrite Hc, ?Hp;
        first [by apply HE | apply HQ].
  - unfold wp. cbn. rewrite Hp. apply HQ.
Qed.

Lemma scratch_run :
  wp (scratch_monitor (output_prefix +:+ ".nii.gz"))
    (process_and_save_importing f w old_nifti_path old_trk_path new_voxel_size
       new_dim output_prefix n_jobs patch_center reduction_method use_gpu
       interp_method step_size max_output_gb)
    false (fun _ _ => True) (fun _ _ => True).
Proof.
  unfold process_and_save_importing.
  eapply wp_seq_with with (I := fun _ s' => s' = false).
  { by apply wp_choose_array_library. }
  intros use_gpu' ? ->.
  wp_go; try exact I.
Qed.


Lemma shipped_call_raises (old_affine : list (list R)) (old_shape : list Z) :
  (bind_arguments (def_signature transform_build_new_affine) 4
     ["patch_center_mm"; "use_gpu"]
   ≫= fun _ => def_body transform_build_new_affine old_affine old_shape
                 new_voxel_size new_dim patch_center)
  = Raised (TypeError "got an unexpected keyword argument 'use_gpu'").
Proof. reflexivity. Qed.

Lemma call_run :
  wp call_monitor
    (process_and_save w old_nifti_path old_trk_path new_voxel_size
       new_dim output_prefix n_jobs patch_center reduction_method use_gpu
       interp_method step_size max_output_gb)
    Before (fun _ _ => False)
    (fun e s =>
       match s with
       | At_call => e = TypeError "got an unexpected keyword argument 'use_gpu'"
       | Before =>
           (use_gpu = true ∧ import_gpu_libraries w = Raised e
            ∧ e ≠ ImportError)
           ∨ nib_load w old_nifti_path = Raised e
       end).
Proof.
  unfold process_and_save, process_and_save_importing.
  eapply wp_seq_with with (I := fun _ s' => s' = Before).
  { apply wp_choose_array_library; auto. }
  intros use_gpu' ? ->.
  wp_go.
  - rewrite shipped_call_raises. reflexivity.
  - by right.
Qed.


(** C9.  In every run of [process_and_save], whatever function the name
    [build_new_affine] is bound to (the one of [transform.py] included) and
    whatever the collaborators do, a call of [os.remove] is preceded in the
    trace by the return of [nib.save] on the output path
    [output_prefix + ".nii.gz"]: the scratch file is not removed before the
    resampled volume has been saved. *)
Theorem scratch_removed_after_save pre p post :
  (process_and_save_importing f w old_nifti_path old_trk_path new_voxel_size
     new_dim output_prefix n_jobs patch_center reduction_method use_gpu
     interp_method step_size max_output_gb).1
  = pre ++ Call (Os_remove p) :: post →
  Done (Nib_save (output_prefix +:+ ".nii.gz")) ∈ pre.
Proof.
  pose proof scratch_run as H.
  set (m := process_and_save_importing _ _ _ _ _ _ _ _ _ _ _ _ _ _) in *.
  clearbody m. intros Htr.
  apply wp_run in H as (s & Hrun & _).
  by destruct (scratch_sound _ _ _ _ Hrun _ _ _ Htr).
Qed.


(** C2, amended.  No run of [process_and_save] returns: every run ends
    with an exception, before any resampling, and the call of
    [build_new_affine] never returns.  When the array library is chosen
    without an error other than [ImportError] and the volume loads, the
    exception is the [TypeError] of the call of [build_new_affine], for the
    keyword [use_gpu] that its parameter list does not have, and that call
    is the last event of the run. *)
Theorem call_raises_type_error :
  let run := process_and_save w old_nifti_path old_trk_path new_voxel_size
               new_dim output_prefix n_jobs patch_center reduction_method
               use_gpu interp_method step_size max_output_gb in
  (∃ e, run.2 = Raised e)
  ∧ (Call Resample_nifti ∉ run.1)
  ∧ (Done Build_new_affine ∉ run.1)
  ∧ ((use_gpu = true →
      import_gpu_libraries w = Returned tt
      ∨ import_gpu_libraries w = Raised ImportError) →
     (∃ img, nib_load w old_nifti_path = Returned img) →
     run.2 = Raised (TypeError "got an unexpected keyword argument 'use_gpu'")
     ∧ last run.1 = Some (Call Build_new_affine)).
Proof.
  cbn zeta. pose proof call_run as H.
  set (m := process_and_save _ _ _ _ _ _ _ _ _ _ _ _ _) in *.
  clearbody m.
  apply wp_run in H as (s & Hrun & Hpost).
  destruct (call_sound _ _ Hrun) as (Hres & Hdone & Hs).
  destruct m.2 as [[]|e]; [done|].
  split; [eauto|]. split; [done|]. split; [done|].
  intros Himp [img Hload]. destruct s.
  - destruct Hpost as [(Hg & He & Hne)|He]; [|congruence].
    destruct (Himp Hg); congruence.
  - by subst e.
Qed.
End Runs.

Ltac decide_by_computation :=
  refine (bool_decide_unpack _ _); vm_compute; exact I.

(** C2 as stated fails: when the input volume cannot be loaded, the run
    ends with the error of the loader, and [build_new_affine] is not
    called. *)
Lemma load_failure_precedes_call :
  (run_shipped nothing_loads).2 = Raised (OtherError "FileNotFoundError")
  ∧ Call Build_new_affine ∉ (run_shipped nothing_loads).1.
Proof. split; [reflexivity|decide_by_computation]. Qed.

(** C2 (amended) where every collaborator succeeds. *)
Lemma call_raises_type_error_witness :
  (∃ img, nib_load everything_works "in.nii" = Returned img)
  ∧ (run_shipped everything_works).2
    = Raised (TypeError "got an unexpected keyword argument 'use_gpu'")
  ∧ last (run_shipped everything_works).1 = Some (Call Build_new_affine).
Proof.
  assert (H : ∃ img, nib_load everything_works "in.nii" = Returned img)
    by (eexists; reflexivity).
  split; [exact H|].
  refine (proj2 (proj2 (proj2
    (call_raises_type_error everything_works "in.nii" "in.trk"
       (Transform.Scalar 1) [116; 140; 96]%Z "resampled" 8 None None true
       "hermite" 1 64))) _ H).
  intros _. left. reflexivity.
Defined.


(** C9 where the resampler used a scratch file. *)
Lemma scratch_removed_after_save_witness :
  (run_accepting everything_works).1
  = take 25 (run_accepting everything_works).1
    ++ Call (Os_remove "scratch.dat") :: drop 26 (run_accepting everything_works).1
  ∧ Done (Nib_save "resampled.nii.gz") ∈ take 25 (run_accepting everything_works).1.
Proof.
  assert (H : (run_accepting everything_works).1
              = take 25 (run_accepting everything_works).1
                ++ Call (Os_remove "scratch.dat")
                   :: drop 26 (run_accepting everything_works).1)
    by (vm_compute; reflexivity).
  split; [exact H|].
  exact (scratch_removed_after_save accepting_use_gpu everything_works "in.nii"
           "in.trk" (Transform.Scalar 1) [116; 140; 96]%Z "resampled" 8 None
           None true "hermite" 1 64 _ _ _ H).
Defined.
End MainProofs.

(** * Further properties *)

(** ** The affine builder *)

Module TransformExtras.
Import Np Transform TransformSpec Main TransformProofs.

(** X1.  Resampling to the grid a volume already has changes nothing: with
    the old column norms as voxel sizes, the old shape as new shape and no
    patch center, [build_new_affine] returns the first three rows of the old
    affine (whose linear part has no zero column) over the row [0 0 0 1]. *)
Theorem identity_resampling old_affine shape :
  is_affine old_affine →
  (∀ j, (j < 3)%nat → column_norm old_affine j ≠ 0) →
  length shape = 3%nat →
  build_new_affine old_affine shape
    (Tuple (map (column_norm old_affine) [0; 1; 2]%nat)) shape None
  = Returned (map array (take 3 old_affine ++ [[0; 0; 0; 1]])).
Proof.
  intros Ha Hn Hs.
  assert (H : valid_input old_affine shape
                (Tuple (map (column_norm old_affine) [0; 1; 2]%nat)) shape None).
  { split; try done. }
  rewrite (build_new_affine_returns _ _ _ _ _ H). f_equal. f_equal.
  unfold new_affine, new_translation, new_linear, scale_factor, chosen_center,
    affine_apply, center_index.
  cbn [requested map nth].
  pose proof (Hn 0%nat ltac:(lia)) as H0.
  pose proof (Hn 1%nat ltac:(lia)) as H1.
  pose proof (Hn 2%nat ltac:(lia)) as H2.
  revert H0 H1 H2.
  generalize (column_norm old_affine 0), (column_norm old_affine 1),
    (column_norm old_affine 2).
  intros n0 n1 n2 H0 H1 H2. clear H Hn.
  destruct Ha as [HL HF].
  destruct old_affine as [|r0 [|r1 [|r2 [|r3 [|]]]]]; try discriminate HL.
  repeat (apply Forall_cons_1 in HF; destruct HF as [? HF]).
  clear HL HF. rows_of_length4.
  destruct shape as [|? [|? [|? [|]]]]; try discriminate Hs.
  unfold entry. cbn [nth take app map].
  repeat (f_equal; try (field; repeat split; assumption)).
Qed.

(** X1 at the 2 mm affine. *)
Lemma identity_resampling_witness :
  is_affine two_mm_affine
  ∧ (∀ j, (j < 3)%nat → column_norm two_mm_affine j ≠ 0)
  ∧ build_new_affine two_mm_affine [5; 5; 5]%Z
      (Tuple (map (column_norm two_mm_affine) [0; 1; 2]%nat)) [5; 5; 5]%Z None
    = Returned (map array (take 3 two_mm_affine ++ [[0; 0; 0; 1]])).
Proof.
  assert (Ha : is_affine two_mm_affine) by (by apply is_affine_4x4).
  assert (Hn : ∀ j, (j < 3)%nat → column_norm two_mm_affine j ≠ 0)
    by exact (valid_scales _ _ _ _ _ two_mm_valid).
  split; [exact Ha|]. split; [exact Hn|].
  exact (identity_resampling two_mm_affine [5; 5; 5]%Z Ha Hn eq_refl).
Defined.

Lemma slice2_array (M : list (list R)) :
  slice2 3 3 (map array M) = map array (map (take 3) (take 3 M)).
Proof.
  unfold slice2, array. rewrite firstn_map, !map_map.
  apply map_ext. intros row. by rewrite firstn_map.
Qed.

(** X3.  When a patch center is given, [build_new_affine] reads neither
    [old_shape] nor the translation column and the last row of [old_affine]:
    two calls whose old affines have the same linear 3x3 part give the same
    result, exception or affine. *)
Theorem patch_center_overrides old_affine old_affine' old_shape old_shape' vs
    new_shape p :
  map (take 3) (take 3 old_affine) = map (take 3) (take 3 old_affine') →
  build_new_affine old_affine old_shape vs new_shape (Some p)
  = build_new_affine old_affine' old_shape' vs new_shape (Some p).
Proof.
  intros H. unfold build_new_affine. cbv zeta.
  by rewrite !slice2_array, H.
Qed.

(** X3 at the 2 mm affine and its bare linear part. *)
Lemma patch_center_overrides_witness :
  map (take 3) (take 3 two_mm_affine)
  = map (take 3) (take 3 [[2; 0; 0; 0]; [0; 2; 0; 0]; [0; 0; 2; 0]])
  ∧ build_new_affine two_mm_affine [5; 5; 5]%Z (Scalar 1) [9; 9; 9]%Z
      (Some [0; 0; 0])
    = build_new_affine [[2; 0; 0; 0]; [0; 2; 0; 0]; [0; 0; 2; 0]] []
        (Scalar 1) [9; 9; 9]%Z (Some [0; 0; 0]).
Proof.
  assert (H : map (take 3) (take 3 two_mm_affine)
              = map (take 3) (take 3 [[2; 0; 0; 0]; [0; 2; 0; 0]; [0; 0; 2; 0]]))
    by reflexivity.
  split; [exact H|].
  exact (patch_center_overrides _ _ _ _ _ _ _ H).
Defined.

Lemma center_vox_length shape : length (center_vox shape) = length shape.
Proof. unfold center_vox, div_scalar, sub_scalar, array_int. by rewrite !length_map. Qed.

Lemma hstack_length v x : length (hstack v x) = (length v + 1)%nat.
Proof. unfold hstack. by rewrite length_app. Qed.

(** X4.  A shape that has not three entries makes the matrix product
    fail: on a 4x4 old affine and three voxel sizes, [build_new_affine]
    raises a [ValueError] when [new_shape] has not length 3, and when no
    patch center is given and [old_shape] has not length 3. *)
Theorem malformed_shape_raises old_affine old_shape vs new_shape pc :
  is_affine old_affine →
  length (requested vs) = 3%nat →
  length new_shape ≠ 3%nat ∨ (pc = None ∧ length old_shape ≠ 3%nat) →
  build_new_affine old_affine old_shape vs new_shape pc
  = Raised (ValueError "matmul: mismatch in core dimension").
Proof.
  intros Ha Hvs Hbad. unfold build_new_affine. fold (requested vs).
  destruct Ha as [HL HF].
  destruct old_affine as [|r0 [|r1 [|r2 [|r3 [|]]]]]; try discriminate HL.
  repeat (apply Forall_cons_1 in HF; destruct HF as [? HF]).
  clear HL HF. rows_of_length4.
  destruct (requested vs) as [|? [|? [|? [|]]]]; try discriminate Hvs.
  cbn -[fdiv fsqrt center_vox matvec].
  unfold matvec. cbn [cols hd length].
  rewrite ?hstack_length, !center_vox_length.
  destruct pc as [p|].
  - destruct Hbad as [Hn|[[=] _]].
    destruct (Nat.eqb_neq 3 (length new_shape)) as [_ ->]; [|congruence].
    reflexivity.
  - destruct (decide (length old_shape = 3%nat)) as [Ho|Ho].
    + destruct Hbad as [Hn|[_ ?]]; [|done].
      rewrite Ho.
      destruct (Nat.eqb_neq 3 (length new_shape)) as [_ ->]; [|congruence].
      reflexivity.
    + destruct (Nat.eqb_neq 4 (length old_shape + 1)) as [_ ->]; [|lia].
      reflexivity.
Qed.

(** X4 at a new shape of two entries. *)
Lemma malformed_shape_raises_witness :
  is_affine two_mm_affine
  ∧ build_new_affine two_mm_affine [5; 5; 5]%Z (Scalar 1) [9; 9]%Z None
    = Raised (ValueError "matmul: mismatch in core dimension").
Proof.
  assert (Ha : is_affine two_mm_affine) by (by apply is_affine_4x4).
  split; [exact Ha|].
  apply (malformed_shape_raises _ _ _ _ _ Ha); [reflexivity|].
  left. cbn. lia.
Defined.

(** X7.  A zero column in the linear part of the old affine is not
    refused: on otherwise valid input [build_new_affine] returns, and in
    each of the first three rows of the affine returned the entry of that
    column and the translation are not finite. *)
Theorem zero_column_gives_non_finite old_affine old_shape vs new_shape pc j :
  is_affine old_affine →
  length old_shape = 3%nat →
  length (requested vs) = 3%nat →
  length new_shape = 3%nat →
  (∀ p, pc = Some p → length p = 3%nat) →
  (j < 3)%nat → column_norm old_affine j = 0 →
  ∃ A_new,
    build_new_affine old_affine old_shape vs new_shape pc = Returned A_new
    ∧ ∀ i, (i < 3)%nat →
        nth j (nth i A_new []) (Fin 0) = NonFinite
        ∧ nth 3 (nth i A_new []) (Fin 0) = NonFinite.
Proof.
  intros Ha Hos Hvs Hns Hpc Hj Hzero.
  unfold build_new_affine. fold (requested vs).
  destruct Ha as [HL HF].
  destruct old_affine as [|r0 [|r1 [|r2 [|r3 [|]]]]]; try discriminate HL.
  repeat (apply Forall_cons_1 in HF; destruct HF as [? HF]).
  clear HL HF. rows_of_length4.
  destruct old_shape as [|? [|? [|? [|]]]]; try discriminate Hos.
  destruct new_shape as [|? [|? [|? [|]]]]; try discriminate Hns.
  destruct (requested vs) as [|? [|? [|? [|]]]]; try discriminate Hvs.
  destruct pc as [[|? [|? [|? [|]]]]|];
    try (specialize (Hpc _ eq_refl); discriminate Hpc); clear Hpc.
  all: unfold column_norm, entry in Hzero; cbn [nth] in Hzero.
  all: cbn -[fdiv fsqrt].
  all: rewrite !fsqrt_Fin by apply sum_sq_nonneg.
  all: rewrite !column_norm_eq, !fdiv_2.
  all: unfold fdiv.
  all: repeat match goal with
              | |- context [Req_dec_T ?x 0] => destruct (Req_dec_T x 0)
              end.
  all: cbn.
  all: eexists; split; [reflexivity|].
  all: intros i Hi; destruct i as [|[|[|i]]]; [| | |lia];
         (destruct j as [|[|[|j]]]; [| | |lia]); cbn [nth] in *;
         first [by split | contradiction].
Qed.

(** X7 at an affine whose first column is zero. *)
Lemma zero_column_gives_non_finite_witness :
  column_norm [[0; 0; 0; 0]; [0; 1; 0; 0]; [0; 0; 1; 0]; [0; 0; 0; 1]] 0 = 0
  ∧ ∃ A_new,
      build_new_affine [[0; 0; 0; 0]; [0; 1; 0; 0]; [0; 0; 1; 0]; [0; 0; 0; 1]]
        [3; 3; 3]%Z (Scalar 1) [3; 3; 3]%Z None = Returned A_new
      ∧ nth 3 (nth 0 A_new []) (Fin 0) = NonFinite.
Proof.
  assert (H : column_norm [[0; 0; 0; 0]; [0; 1; 0; 0]; [0; 0; 1; 0]; [0; 0; 0; 1]] 0
              = 0).
  { unfold column_norm, entry. cbn [nth].
    replace (0 * 0 + 0 * 0 + 0 * 0) with 0 by ring. apply sqrt_0. }
  split; [exact H|].
  destruct (zero_column_gives_non_finite
              [[0; 0; 0; 0]; [0; 1; 0; 0]; [0; 0; 1; 0]; [0; 0; 0; 1]]
              [3; 3; 3]%Z (Scalar 1) [3; 3; 3]%Z None 0)
    as (A & HA & Hi);
    [by apply is_affine_4x4|reflexivity|reflexivity|reflexivity|discriminate|lia
    |exact H|].
  exists A. split; [exact HA|]. apply Hi. lia.
Defined.

(** X6.  A voxel size given as a 1-tuple [(s,)] is broadcast: on a 4x4
    old affine the result is that of the scalar [s]. *)
Theorem singleton_voxel_size_broadcast old_affine old_shape (s : R) new_shape pc :
  is_affine old_affine →
  build_new_affine old_affine old_shape (Tuple [s]) new_shape pc
  = build_new_affine old_affine old_shape (Scalar s) new_shape pc.
Proof.
  intros [HL HF]. unfold build_new_affine.
  destruct old_affine as [|r0 [|r1 [|r2 [|r3 [|]]]]]; try discriminate HL.
  repeat (apply Forall_cons_1 in HF; destruct HF as [? HF]).
  clear HL HF. rows_of_length4. reflexivity.
Qed.

(** X6 at the 2 mm affine. *)
Lemma singleton_voxel_size_broadcast_witness :
  is_affine two_mm_affine
  ∧ build_new_affine two_mm_affine [5; 5; 5]%Z (Tuple [1]) [9; 9; 9]%Z None
    = build_new_affine two_mm_affine [5; 5; 5]%Z (Scalar 1) [9; 9; 9]%Z None.
Proof.
  assert (Ha : is_affine two_mm_affine) by (by apply is_affine_4x4).
  split; [exact Ha|].
  exact (singleton_voxel_size_broadcast _ _ _ _ _ Ha).
Defined.

(** X5.  A voxel size tuple whose length is neither 1 nor 3 cannot be
    divided by the three old scales: on a 4x4 old affine
    [build_new_affine] raises the [ValueError] of the broadcast. *)
Theorem voxel_size_length_raises old_affine old_shape (l : list R) new_shape pc :
  is_affine old_affine →
  length l ≠ 1%nat → length l ≠ 3%nat →
  build_new_affine old_affine old_shape (Tuple l) new_shape pc
  = Raised (ValueError "operands could not be broadcast together").
Proof.
  intros [HL HF] H1 H3. unfold build_new_affine.
  destruct old_affine as [|r0 [|r1 [|r2 [|r3 [|]]]]]; try discriminate HL.
  repeat (apply Forall_cons_1 in HF; destruct HF as [? HF]).
  clear HL HF. rows_of_length4.
  destruct l as [|? [|? [|? [|? l]]]]; try done.
Qed.

(** X5 at a voxel size of two entries. *)
Lemma voxel_size_length_raises_witness :
  is_affine two_mm_affine
  ∧ build_new_affine two_mm_affine [5; 5; 5]%Z (Tuple [1; 1]) [9; 9; 9]%Z None
    = Raised (ValueError "operands could not be broadcast together").
Proof.
  assert (Ha : is_affine two_mm_affine) by (by apply is_affine_4x4).
  split; [exact Ha|].
  apply (voxel_size_length_raises _ _ _ _ _ Ha); cbn; lia.
Defined.

Lemma bind_Returned {A B} (m : result A) (k : A → result B) b :
  m ≫= k = Returned b → ∃ a, m = Returned a ∧ k a = Returned b.
Proof. destruct m as [a|e]; [eauto|discriminate]. Qed.

Lemma broadcast_to1_length n v v' :
  broadcast_to1 n v = Returned v' → length v' = n.
Proof.
  unfold broadcast_to1. destruct (length v =? n)%nat eqn:Hn.
  - intros [= <-]. by apply Nat.eqb_eq.
  - destruct v as [|x [|]]; try discriminate. intros [= <-].
    apply length_replicate.
Qed.

Lemma mapM_broadcast_to1 c M rows :
  mapM (broadcast_to1 c) M = Returned rows →
  Forall (fun row => length row = c) rows.
Proof.
  revert rows. induction M as [|v M IH]; intros rows; cbn [mapM].
  - intros [= <-]. constructor.
  - destruct (broadcast_to1 c v) as [v'|] eqn:Hv; [|discriminate].
    cbn [Py.bind]. destruct (mapM (broadcast_to1 c) M) as [rows'|]; [|discriminate].
    cbn [Py.bind]. intros [= <-]. constructor; [by eapply broadcast_to1_length|auto].
Qed.

Lemma broadcast_to2_shape r c M M' :
  broadcast_to2 r c M = Returned M' →
  length M' = r ∧ Forall (fun row => length row = c) M'.
Proof.
  unfold broadcast_to2. intros (rows & Hrows & H)%bind_Returned.
  apply mapM_broadcast_to1 in Hrows.
  destruct (length rows =? r)%nat eqn:Hr.
  - injection H as <-. split; [by apply Nat.eqb_eq|done].
  - destruct rows as [|row [|]]; try discriminate. injection H as <-.
    split; [apply length_replicate|].
    apply Forall_cons_1 in Hrows as [Hrow _].
    clear Hr. induction r; constructor; auto.
Qed.

(** X8.  Whatever the arguments, an affine that [build_new_affine]
    returns has four rows of four entries, and its last row is
    [0 0 0 1]. *)
Theorem returned_affine_well_formed old_affine old_shape vs new_shape pc A_new :
  build_new_affine old_affine old_shape vs new_shape pc = Returned A_new →
  length A_new = 4%nat
  ∧ Forall (fun row => length row = 4%nat) A_new
  ∧ A_new !! 3%nat = Some [Fin 0; Fin 0; Fin 0; Fin 1].
Proof.
  unfold build_new_affine. cbv zeta.
  intros (sf & _ & H)%bind_Returned.
  apply bind_Returned in H as (R_new & _ & H).
  apply bind_Returned in H as (old_center_mm & _ & H).
  apply bind_Returned in H as (Rc & _ & H).
  apply bind_Returned in H as (t_new & _ & H).
  apply bind_Returned in H as (A1 & H1 & H).
  apply bind_Returned in H as (A2 & H2 & [= <-]).
  unfold assign_block33 in H1.
  apply bind_Returned in H1 as (B & [HB HBrows]%broadcast_to2_shape & [= <-]).
  unfold assign_col3 in H2.
  apply bind_Returned in H2 as (t & Ht%broadcast_to1_length & [= <-]).
  destruct B as [|b0 [|b1 [|b2 [|]]]]; try discriminate HB.
  repeat (apply Forall_cons_1 in HBrows; destruct HBrows as [? HBrows]).
  repeat match goal with
         | H : length ?row = 3%nat |- _ =>
             destruct row as [|? [|? [|? [|]]]]; try discriminate H; clear H
         end.
  cbn. repeat split; try done. by repeat constructor.
Qed.

(** X8 at the 2 mm affine. *)
Lemma returned_affine_well_formed_witness :
  ∃ A_new,
    build_new_affine two_mm_affine [5; 5; 5]%Z (Scalar 1) [9; 9; 9]%Z None
    = Returned A_new
    ∧ length A_new = 4%nat
    ∧ Forall (fun row => length row = 4%nat) A_new
    ∧ A_new !! 3%nat = Some [Fin 0; Fin 0; Fin 0; Fin 1].
Proof.
  eexists. split; [exact (build_new_affine_returns _ _ _ _ _ two_mm_valid)|].
  exact (returned_affine_well_formed _ _ _ _ _ _
           (build_new_affine_returns _ _ _ _ _ two_mm_valid)).
Defined.

Lemma new_affine_is_affine old_affine old_shape vs new_shape pc :
  is_affine (new_affine old_affine old_shape vs new_shape pc).
Proof. by apply is_affine_4x4. Qed.

Lemma column_norm_new_affine old_affine old_shape vs new_shape pc j :
  (j < 3)%nat → column_norm old_affine j ≠ 0 →
  column_norm (new_affine old_affine old_shape vs new_shape pc) j
  = Rabs (nth j (requested vs) 0).
Proof.
  intros Hj Hn. unfold column_norm at 1.
  assert (He : ∀ i, (i < 3)%nat →
            entry (new_affine old_affine old_shape vs new_shape pc) i j
            = entry old_affine i j
              * (nth j (requested vs) 0 / column_norm old_affine j)).
  { intros i Hi. destruct i as [|[|[|i]]]; [| | |lia];
      (destruct j as [|[|[|j]]]; [| | |lia]); reflexivity. }
  rewrite !He by lia. unfold column_norm in *.
  etransitivity; [symmetry; apply column_norm_eq|].
  by apply rescaled_column_norm.
Qed.

(** X2.  Resampling in two steps gives the affine of the one step: when
    the first call is on valid input with positive voxel sizes and returns
    [M], a second call on [M] and the first new shape returns what one call
    on the old affine and the old shape returns for the second voxel sizes
    and the second new shape. *)
Theorem resampling_composes old_affine old_shape vs1 shape1 vs2 shape2 :
  valid_input old_affine old_shape vs1 shape1 None →
  Forall (fun v => 0 < v) (requested vs1) →
  length (requested vs2) = 3%nat →
  length shape2 = 3%nat →
  ∃ M,
    build_new_affine old_affine old_shape vs1 shape1 None = Returned (map array M)
    ∧ build_new_affine M shape1 vs2 shape2 None
      = build_new_affine old_affine old_shape vs2 shape2 None.
Proof.
  intros H Hpos Hvs2 Hs2.
  exists (new_affine old_affine old_shape vs1 shape1 None).
  split; [by apply build_new_affine_returns|].
  pose proof H as [Ha Hn Hos Hvs Hns _].
  assert (Hnorm : ∀ j, (j < 3)%nat →
            column_norm (new_affine old_affine old_shape vs1 shape1 None) j
            = nth j (requested vs1) 0).
  { intros j Hj. rewrite column_norm_new_affine by auto.
    apply Rabs_pos_eq. left.
    destruct (requested vs1) as [|? [|? [|? [|]]]]; try discriminate Hvs.
    repeat (apply Forall_cons_1 in Hpos; destruct Hpos as [? Hpos]).
    destruct j as [|[|[|j]]]; [done|done|done|lia]. }
  assert (Hnz : ∀ j, (j < 3)%nat → nth j (requested vs1) 0 ≠ 0).
  { intros j Hj.
    destruct (requested vs1) as [|? [|? [|? [|]]]]; try discriminate Hvs.
    repeat (apply Forall_cons_1 in Hpos; destruct Hpos as [? Hpos]).
    destruct j as [|[|[|j]]]; cbn [nth]; lra || lia. }
  assert (H1 : valid_input (new_affine old_affine old_shape vs1 shape1 None)
                 shape1 vs2 shape2 None).
  { split; try done; [apply new_affine_is_affine|].
    intros j Hj. rewrite Hnorm by done. by apply Hnz. }
  assert (H2 : valid_input old_affine old_shape vs2 shape2 None)
    by (split; done).
  rewrite (build_new_affine_returns _ _ _ _ _ H1),
    (build_new_affine_returns _ _ _ _ _ H2).
  f_equal. f_equal.
  set (M := new_affine old_affine old_shape vs1 shape1 None) in *.
  unfold new_affine, new_translation, new_linear, scale_factor,
    chosen_center, affine_apply.
  cbn [map app].
  rewrite !Hnorm by lia.
  assert (He : ∀ i j, (i < 3)%nat → (j < 3)%nat →
            entry M i j
            = entry old_affine i j
              * (nth j (requested vs1) 0 / column_norm old_affine j)).
  { intros i j Hi Hj. destruct i as [|[|[|i]]]; [| | |lia];
      (destruct j as [|[|[|j]]]; [| | |lia]); reflexivity. }
  assert (Ht : ∀ i, (i < 3)%nat →
            entry M i 3 = new_translation old_affine old_shape vs1 shape1 None i).
  { intros i Hi. destruct i as [|[|[|i]]]; [| | |lia]; reflexivity. }
  rewrite !Ht by lia. rewrite !He by lia. clear He Ht Hnorm H1 H2 H. clear M.
  unfold new_translation, new_linear, scale_factor, chosen_center, affine_apply.
  pose proof (Hn 0%nat ltac:(lia)) as Hn0.
  pose proof (Hn 1%nat ltac:(lia)) as Hn1.
  pose proof (Hn 2%nat ltac:(lia)) as Hn2.
  pose proof (Hnz 0%nat ltac:(lia)) as Hz0.
  pose proof (Hnz 1%nat ltac:(lia)) as Hz1.
  pose proof (Hnz 2%nat ltac:(lia)) as Hz2.
  revert Hn0 Hn1 Hn2.
  generalize (column_norm old_affine 0), (column_norm old_affine 1),
    (column_norm old_affine 2).
  intros n0 n1 n2 Hn0 Hn1 Hn2. clear Hn Hnz Hpos Ha.
  destruct (requested vs1) as [|? [|? [|? [|]]]]; try discriminate Hvs.
  destruct (requested vs2) as [|? [|? [|? [|]]]]; try discriminate Hvs2.
  destruct old_shape as [|? [|? [|? [|]]]]; try discriminate Hos.
  destruct shape1 as [|? [|? [|? [|]]]]; try discriminate Hns.
  destruct shape2 as [|? [|? [|? [|]]]]; try discriminate Hs2.
  cbn [nth map center_index] in *.
  repeat (f_equal; try (field; repeat split; assumption)).
Qed.

(** X2 at the 2 mm affine, through 1 mm to 3 mm. *)
Lemma resampling_composes_witness :
  valid_input two_mm_affine [5; 5; 5]%Z (Scalar 1) [9; 9; 9]%Z None
  ∧ ∃ M,
      build_new_affine two_mm_affine [5; 5; 5]%Z (Scalar 1) [9; 9; 9]%Z None
      = Returned (map array M)
      ∧ build_new_affine M [9; 9; 9]%Z (Scalar 3) [4; 4; 4]%Z None
        = build_new_affine two_mm_affine [5; 5; 5]%Z (Scalar 3) [4; 4; 4]%Z None.
Proof.
  split; [exact two_mm_valid|].
  apply (resampling_composes _ _ _ _ _ _ two_mm_valid);
    [repeat constructor; lra|reflexivity|reflexivity].
Defined.
End TransformExtras.

(** ** The batch driver *)

Module DriverExtras.
Import CompareInterpolation DriverSpec DriverProofs DriverLog.

Section Environment.
Context {streamline diagnostic : Type}.
Variable densify :
  gmap string string → streamline → R → bool → string → R →
  list diagnostic * result streamline.

Abbreviation event := (event streamline diagnostic).
Abbreviation state := (state streamline diagnostic).

Lemma loop_environ n step method voxel use_gpu (l : list streamline) :
  ∀ idx (st : state) acc,
    environ (loop densify n step method voxel use_gpu idx l st acc).1
    = environ_after (environ st) idx (length l).
Proof.
  induction l as [|s l IH]; intros idx st acc; [reflexivity|].
  cbn [loop].
  set (st1 := if (idx mod 50 =? 0)%nat then _ else st).
  set (st2 := setenv _ _ st1).
  set (st3 := if (idx <? 5)%nat then _ else st2).
  set (c := Call_densify _ _ _ _ _ _ _).
  set (st4 := print c st3).
  set (out := densify _ _ _ _ _ _).
  set (st5 := print_all _ st4).
  assert (Henv : environ st5 = <["DEBUG_TANGENTS" := flag idx]> (environ st)).
  { subst st5 st4 st3 st2 st1. unfold flag.
    destruct (idx mod 50 =? 0)%nat, (idx <? 5)%nat; reflexivity. }
  assert (Hnext : environ_after (environ st5) (S idx) (length l)
                  = environ_after (environ st) idx (length (s :: l))).
  { rewrite Henv. cbn [length]. destruct (length l) as [|k]; cbn [environ_after].
    - by rewrite Nat.add_0_r.
    - rewrite insert_insert_eq. do 2 f_equal. lia. }
  destruct (out.2) as [d|e]; rewrite IH; [exact Hnext|].
  exact Hnext.
Qed.

(** X9.  The driver does not restore [DEBUG_TANGENTS]: after a run over at
    least one streamline the process environment holds the flag of the last
    streamline, "1" when there were at most five and "0" otherwise, whatever
    it held before; a run over no streamline leaves the environment as it
    was. *)
Theorem debug_flag_left_behind (streamlines : list streamline) step method voxel
    use_gpu (st : state) :
  environ (process_streamlines_with_method densify streamlines step method voxel
             use_gpu st).1
  = match length streamlines with
    | O => environ st
    | S k => <["DEBUG_TANGENTS" := if (k <? 5)%nat then "1" else "0"]> (environ st)
    end.
Proof.
  unfold process_streamlines_with_method. cbn [fst print environ].
  rewrite loop_environ. cbn [print environ].
  by destruct (length streamlines).
Qed.

Lemma outcomes_length (cs : list (call streamline)) :
  (length (successes densify cs) + length (failures densify cs) = length cs)%nat.
Proof.
  induction cs as [|c cs IH]; [done|].
  rewrite successes_cons, failures_cons.
  destruct (outcome densify c); cbn [length]; lia.
Qed.

(** X10.  No streamline is dropped silently: the streamlines returned and the
    errors printed by a run add up to the streamlines given. *)
Theorem every_streamline_accounted (streamlines : list streamline) step method
    voxel use_gpu (st : state) :
  let r := process_streamlines_with_method densify streamlines step method
             voxel use_gpu st in
  ∃ failed,
    errors (stdout r.1) = errors (stdout st) ++ failed
    ∧ (length r.2 + length failed = length streamlines)%nat.
Proof.
  cbn zeta.
  destruct (driver_spec densify streamlines step method voxel use_gpu st)
    as (_ & H2 & H3 & _).
  eexists. split; [exact H3|].
  rewrite H2, outcomes_length. apply expected_calls_length.
Qed.

Lemma progress_lines_app (l1 l2 : list event) :
  progress_lines (l1 ++ l2) = progress_lines l1 ++ progress_lines l2.
Proof. apply omap_app. Qed.

Lemma scaled_step_lines_app (l1 l2 : list event) :
  scaled_step_lines (l1 ++ l2) = scaled_step_lines l1 ++ scaled_step_lines l2.
Proof. apply omap_app. Qed.

Lemma progress_lines_output (ds : list diagnostic) :
  progress_lines (map (@Densifier_output streamline diagnostic) ds) = [].
Proof. induction ds; [reflexivity|assumption]. Qed.

Lemma scaled_step_lines_output (ds : list diagnostic) :
  scaled_step_lines (map (@Densifier_output streamline diagnostic) ds) = [].
Proof. induction ds; [reflexivity|assumption]. Qed.

Lemma loop_lines n step method voxel use_gpu (l : list streamline) :
  ∀ idx (st : state) acc,
    let r := loop densify n step method voxel use_gpu idx l st acc in
    progress_lines (stdout r.1)
    = progress_lines (stdout st)
      ++ map (fun i => (i, n))
           (filter (fun i => i mod 50 = 0)%nat (seq idx (length l)))
    ∧ scaled_step_lines (stdout r.1)
      = scaled_step_lines (stdout st)
        ++ replicate (length l `min` (5 - idx)) (step * (voxel / 1), step, voxel).
Proof.
  induction l as [|s l IH]; intros idx st acc.
  - cbn. by rewrite !app_nil_r.
  - cbn zeta. cbn [loop].
    set (st1 := if (idx mod 50 =? 0)%nat then _ else st).
    set (st2 := setenv _ _ st1).
    set (st3 := if (idx <? 5)%nat then _ else st2).
    set (c := Call_densify _ _ _ _ _ _ _).
    set (st4 := print c st3).
    set (out := densify _ _ _ _ _ _).
    set (st5 := print_all _ st4).
    assert (Hp : progress_lines (stdout st5)
                 = progress_lines (stdout st)
                   ++ (if (idx mod 50 =? 0)%nat then [(idx, n)] else [])).
    { subst st5 st4 c st3 st2 st1.
      destruct (idx mod 50 =? 0)%nat, (idx <? 5)%nat;
        cbn [print_all print setenv stdout];
        rewrite ?progress_lines_app, progress_lines_output;
        cbn [progress_lines omap list_omap]; by rewrite ?app_nil_r. }
    assert (Hs : scaled_step_lines (stdout st5)
                 = scaled_step_lines (stdout st)
                   ++ (if (idx <? 5)%nat
                       then [(step * (voxel / 1), step, voxel)] else [])).
    { subst st5 st4 c st3 st2 st1.
      destruct (idx mod 50 =? 0)%nat, (idx <? 5)%nat;
        cbn [print_all print setenv stdout];
        rewrite ?scaled_step_lines_app, scaled_step_lines_output;
        cbn [scaled_step_lines omap list_omap]; by rewrite ?app_nil_r. }
    assert (Hf : map (fun i => (i, n))
                   (filter (fun i => i mod 50 = 0)%nat (seq idx (length (s :: l))))
                 = (if (idx mod 50 =? 0)%nat then [(idx, n)] else [])
                   ++ map (fun i => (i, n))
                        (filter (fun i => i mod 50 = 0)%nat
                           (seq (S idx) (length l)))).
    { cbn [length seq]. rewrite filter_cons.
      destruct (idx mod 50 =? 0)%nat eqn:Hm.
      - apply Nat.eqb_eq in Hm. by rewrite decide_True.
      - apply Nat.eqb_neq in Hm. by rewrite decide_False. }
    assert (Hr : replicate (length (s :: l) `min` (5 - idx))
                   (step * (voxel / 1), step, voxel)
                 = (if (idx <? 5)%nat
                    then [(step * (voxel / 1), step, voxel)] else [])
                   ++ replicate (length l `min` (5 - S idx))
                        (step * (voxel / 1), step, voxel)).
    { cbn [length]. destruct (idx <? 5)%nat eqn:Hlt.
      - apply Nat.ltb_lt in Hlt.
        replace (S (length l) `min` (5 - idx))%nat
          with (S (length l `min` (5 - S idx))) by lia.
        reflexivity.
      - apply Nat.ltb_ge in Hlt.
        replace (S (length l) `min` (5 - idx))%nat with 0%nat by lia.
        replace (length l `min` (5 - S idx))%nat with 0%nat by lia.
        reflexivity. }
    rewrite Hf, Hr, !app_assoc, <- Hp, <- Hs.
    destruct (out.2) as [d|e].
    + apply IH.
    + destruct (IH (S idx) (print (Print_error idx e) st5) acc) as [IH1 IH2].
      cbn zeta in IH1, IH2. rewrite IH1, IH2. cbn [print stdout].
      rewrite progress_lines_app, scaled_step_lines_app.
      cbn [progress_lines scaled_step_lines omap list_omap].
      by rewrite !app_nil_r.
Qed.

(** X11.  What the driver reports on the way: a progress line, with the index
    and the total, for the streamlines whose index is a multiple of 50 and
    for no other, and the scaled step size for the first five streamlines
    only. *)
Theorem progress_every_fifty (streamlines : list streamline) step method voxel
    use_gpu (st : state) :
  let r := process_streamlines_with_method densify streamlines step method
             voxel use_gpu st in
  let n := length streamlines in
  progress_lines (stdout r.1)
  = progress_lines (stdout st)
    ++ map (fun i => (i, n)) (filter (fun i => i mod 50 = 0)%nat (seq 0 n))
  ∧ scaled_step_lines (stdout r.1)
    = scaled_step_lines (stdout st)
      ++ replicate (n `min` 5) (step * (voxel / 1), step, voxel).
Proof.
  cbn zeta. unfold process_streamlines_with_method.
  set (st0 := print _ st).
  destruct (loop_lines (length streamlines) step method voxel use_gpu
              streamlines 0 st0 []) as [H1 H2].
  cbn zeta in H1, H2. cbn [fst snd print stdout].
  rewrite progress_lines_app, scaled_step_lines_app, H1, H2.
  subst st0. cbn [print stdout].
  rewrite progress_lines_app, scaled_step_lines_app.
  cbn [progress_lines scaled_step_lines omap list_omap].
  rewrite !app_nil_r. by rewrite Nat.sub_0_r.
Qed.
End Environment.
End DriverExtras.

(** ** The comparison of the metrics *)

Module CompareMetricsProofs.
Import CompareMetrics.

Lemma gt_spec x y : gt x y = true ↔ x > y.
Proof. unfold gt. destruct (Rgt_dec x y); split; (done || lra). Qed.

Lemma gt_false x y : gt x y = false ↔ x <= y.
Proof. unfold gt. destruct (Rgt_dec x y); split; (done || lra). Qed.

Lemma percent_positive d b : percent d b > 0 ↔ b > 0 ∧ d > 0.
Proof.
  unfold percent. destruct (gt b 0) eqn:Hb.
  - apply gt_spec in Hb. split.
    + intros H. split; [done|].
      destruct (Rle_or_lt d 0) as [Hd|Hd]; [|lra].
      assert (d / b <= 0); [|lra].
      unfold Rdiv. assert (0 < / b) by (by apply Rinv_0_lt_compat). nra.
    + intros [_ Hd]. assert (0 < d / b) by (by apply Rdiv_lt_0_compat). lra.
  - apply gt_false in Hb. split; [lra|]. intros [? _]. lra.
Qed.

Lemma abs_percent_gt d b k :
  0 < k → Rabs (percent d b) > k ↔ b > 0 ∧ 100 * Rabs d > k * b.
Proof.
  intros Hk. unfold percent. destruct (gt b 0) eqn:Hb.
  - apply gt_spec in Hb.
    replace (Rabs (d / b * 100)) with (Rabs d / b * 100).
    + assert (0 < / b) by (by apply Rinv_0_lt_compat).
      split.
      * intros H1. split; [done|].
        assert (Rabs d / b * 100 * b = 100 * Rabs d) as <- by (field; lra).
        nra.
      * intros [_ H1].
        assert (k = k * b / b) as -> by (field; lra).
        unfold Rdiv in *. nra.
    + unfold Rdiv. rewrite !Rabs_mult, (Rabs_right (/ b)), (Rabs_right 100); [done|lra|].
      left. by apply Rinv_0_lt_compat.
  - apply gt_false in Hb. rewrite Rabs_R0. split; [lra|]. intros [? _]. lra.
Qed.

Ltac absent :=
  let H := fresh in
  intros H;
  repeat match type of H with
         | context [if ?b then _ else _] => destruct b
         end;
  repeat (apply elem_of_cons in H as [H|H]; [discriminate H|]);
  by apply elem_of_nil in H.

Lemma use_hermite_iff (l h : metrics) :
  Use_hermite ∈ compare_metrics l h
  ↔ (gt (Rabs (percent (get h "mean_curvature" - get l "mean_curvature")
                 (get l "mean_curvature"))) 10
     || gt (Rabs (percent (get h "mean_length" - get l "mean_length")
                    (get l "mean_length"))) 5)
    && gt (percent (get h "mean_curvature" - get l "mean_curvature")
             (get l "mean_curvature")) 0 = true.
Proof.
  unfold compare_metrics. cbv zeta. rewrite !elem_of_app.
  split.
  - intros [H|[H|[H|[H|[H|[H|H]]]]]];
      try (exfalso; revert H; absent).
    destruct (_ || _); [|exfalso; revert H; absent].
    destruct (gt (percent _ _) 0); [done|exfalso; revert H; absent].
  - intros [-> ->]%andb_true_iff. do 6 right.
    apply elem_of_cons. right. apply elem_of_cons. by left.
Qed.

(** X12.  [compare_metrics] recommends the Hermite interpolation exactly
    when the linear mean curvature is positive, the Hermite mean curvature
    is higher, and either it is higher by more than 10 percent or the mean
    lengths differ by more than 5 percent of a positive linear mean
    length. *)
Theorem use_hermite_when (linear_metrics hermite_metrics : metrics) :
  Use_hermite ∈ compare_metrics linear_metrics hermite_metrics
  ↔ get linear_metrics "mean_curvature" > 0
    ∧ get hermite_metrics "mean_curvature" > get linear_metrics "mean_curvature"
    ∧ (10 * (get hermite_metrics "mean_curvature"
             - get linear_metrics "mean_curvature")
       > get linear_metrics "mean_curvature"
       ∨ (get linear_metrics "mean_length" > 0
          ∧ 20 * Rabs (get hermite_metrics "mean_length"
                       - get linear_metrics "mean_length")
            > get linear_metrics "mean_length")).
Proof.
  rewrite use_hermite_iff.
  set (lc := get linear_metrics "mean_curvature").
  set (hc := get hermite_metrics "mean_curvature").
  set (ll := get linear_metrics "mean_length").
  set (hl := get hermite_metrics "mean_length").
  rewrite andb_true_iff, orb_true_iff, !gt_spec.
  rewrite percent_positive, !abs_percent_gt by lra.
  split.
  - intros [Hor [Hl Hd]]. split; [done|]. split; [lra|].
    destruct Hor as [[_ H]|[? H]].
    + left. rewrite Rabs_right in H by lra. lra.
    + right. split; [done|]. lra.
  - intros (Hl & Hd & Hor). split; [|split; [done|lra]].
    destruct Hor as [H|[? H]].
    + left. split; [done|]. rewrite Rabs_right by lra. lra.
    + right. split; [done|]. lra.
Qed.

(** X13.  When the two methods have the same mean curvature and the same
    mean length, [compare_metrics] ends with the summary of minimal
    differences and the advice that either method is suitable, whatever the
    other metrics are. *)
Theorem same_metrics_either_method (linear_metrics hermite_metrics : metrics) :
  get linear_metrics "mean_curvature" = get hermite_metrics "mean_curvature" →
  get linear_metrics "mean_length" = get hermite_metrics "mean_length" →
  ∃ lines,
    compare_metrics linear_metrics hermite_metrics
    = lines ++ [Summary; Curvature_minimal; Length_minimal; Recommendation;
                Either_method].
Proof.
  intros Hc Hl. unfold compare_metrics. cbv zeta. rewrite <- Hc, <- Hl.
  assert (Hz : ∀ b, Rabs (percent (b - b) b) = 0).
  { intros b. unfold percent. destruct (gt b 0); [|apply Rabs_R0].
    replace ((b - b) / b * 100) with 0; [apply Rabs_R0|].
    unfold Rdiv. ring. }
  rewrite !Hz.
  assert (H5 : gt 0 5 = false) by (apply gt_false; lra).
  assert (H10 : gt 0 10 = false) by (apply gt_false; lra).
  rewrite H5, H10. cbn [orb].
  eexists (_ ++ _). rewrite <- app_assoc. reflexivity.
Qed.

(** X13 at two dicts that differ in the maximal curvature only. *)
Lemma same_metrics_either_method_witness :
  ∃ lines,
    compare_metrics {["mean_curvature" := 2; "mean_length" := 40]}
                    {["mean_curvature" := 2; "mean_length" := 40;
                      "max_curvature" := 3]}
    = lines ++ [Summary; Curvature_minimal; Length_minimal; Recommendation;
                Either_method].
Proof. apply same_metrics_either_method; reflexivity. Defined.

(** X14.  When the linear mean curvature is not positive, the curvature
    difference counts as 0 percent whatever the Hermite curvature is: if
    the mean lengths differ by more than 5 percent, [compare_metrics]
    reports minimal curvature differences and yet advises to verify the
    Hermite implementation. *)
Theorem flat_reference_verify (linear_metrics hermite_metrics : metrics) :
  get linear_metrics "mean_curvature" <= 0 →
  get linear_metrics "mean_length" > 0 →
  20 * Rabs (get hermite_metrics "mean_length" - get linear_metrics "mean_length")
  > get linear_metrics "mean_length" →
  ∃ lines percent longer,
    compare_metrics linear_metrics hermite_metrics
    = lines ++ [Summary; Curvature_minimal; Length_change percent longer;
                Recommendation; Hermite_less_curvature; Verify_hermite].
Proof.
  intros Hc Hl Hd. unfold compare_metrics. cbv zeta.
  set (lc := get linear_metrics "mean_curvature") in *.
  set (ll := get linear_metrics "mean_length") in *.
  assert (Hp : percent (get hermite_metrics "mean_curvature" - lc) lc = 0).
  { unfold percent. by apply gt_false in Hc as ->. }
  rewrite Hp, Rabs_R0.
  assert (H5 : gt 0 5 = false) by (apply gt_false; lra).
  assert (H10 : gt 0 10 = false) by (apply gt_false; lra).
  assert (H0 : gt 0 0 = false) by (apply gt_false; lra).
  assert (Hlen : gt (Rabs (percent (get hermite_metrics "mean_length" - ll) ll)) 5
                 = true).
  { apply gt_spec, abs_percent_gt; [lra|]. split; [done|lra]. }
  rewrite H5, H10, H0, Hlen. cbn [orb].
  eexists (_ ++ _), _, _. rewrite <- app_assoc. reflexivity.
Qed.

(** X14 at a straight reference and 10 percent more length. *)
Lemma flat_reference_verify_witness :
  ∃ lines percent longer,
    compare_metrics {["mean_curvature" := 0; "mean_length" := 40]}
                    {["mean_curvature" := 1; "mean_length" := 44]}
    = lines ++ [Summary; Curvature_minimal; Length_change percent longer;
                Recommendation; Hermite_less_curvature; Verify_hermite].
Proof.
  apply flat_reference_verify.
  - change (0 <= 0). lra.
  - change (40 > 0). lra.
  - change (20 * Rabs (44 - 40) > 40). rewrite Rabs_right; lra.
Defined.

(** X12 at a mean curvature that doubles. *)
Lemma use_hermite_when_witness :
  Use_hermite ∈ compare_metrics {["mean_curvature" := 1; "mean_length" := 40]}
                                {["mean_curvature" := 2; "mean_length" := 40]}.
Proof.
  apply use_hermite_when.
  change (1 > 0 ∧ 2 > 1 ∧ (10 * (2 - 1) > 1 ∨ 40 > 0 ∧ 20 * Rabs (40 - 40) > 40)).
  lra.
Defined.

End CompareMetricsProofs.

(** ** The pipeline *)

Module MainExtras.
Import Np Main Monitor MonitorFacts MainProofs PipelineMonitors.

Lemma order_sound tr :
  ∀ s s', run order_monitor s tr = Some s' →
  (s ≤ s')%nat
  ∧ (∀ a, Call a ∈ tr → (s < stage a)%nat)
  ∧ ∀ pre a mid b post, tr = pre ++ Call a :: mid ++ Call b :: post →
      (stage a < stage b)%nat.
Proof.
  induction tr as [|e tr IH]; intros s s' Hrun.
  - cbn in Hrun. simplify_eq. split; [lia|]. split.
    + by intros a ?%elem_of_nil.
    + intros [|??] ?????; discriminate.
  - cbn [run] in Hrun.
    destruct (order_monitor s e) as [s1|] eqn:Hstep; [|done].
    destruct (IH _ _ Hrun) as (Hle & Hin & Hord).
    assert (Hs1 : (s ≤ s1)%nat
                  ∧ ∀ a, e = Call a → (s < stage a)%nat ∧ s1 = stage a).
    { destruct e as [| |op|]; cbn [order_monitor] in Hstep; simplify_eq;
        try (split; [lia|done]).
      destruct (s <? stage op)%nat eqn:Hlt; [|done]. simplify_eq.
      apply Nat.ltb_lt in Hlt. split; [lia|]. by intros a [= <-]. }
    destruct Hs1 as [Hle1 Hcall].
    split; [lia|]. split.
    + intros a [?|Ha]%elem_of_cons.
      * subst e. by destruct (Hcall _ eq_refl).
      * specialize (Hin _ Ha). lia.
    + intros pre a mid b post Htr. destruct pre as [|e' pre]; simplify_eq/=.
      * destruct (Hcall _ eq_refl) as [_ ->].
        apply Hin. rewrite elem_of_app, elem_of_cons. auto.
      * by eapply Hord.
Qed.

Lemma reduction_sound tr :
  ∀ s s', run reduction_monitor s tr = Some s' →
  (∀ p, Call (Nib_save p) ∉ tr)
  ∧ (∀ p, Call (Save_trk p) ∉ tr)
  ∧ (s = Resampled ∨ Done Resample_nifti ∈ tr → s' = Resampled).
Proof.
  induction tr as [|e tr IH]; intros s s' Hrun.
  - cbn in Hrun. simplify_eq.
    split; [intros p; apply not_elem_of_nil|].
    split; [intros p; apply not_elem_of_nil|].
    intros [?|H]; [done|]. by apply elem_of_nil in H.
  - cbn [run] in Hrun.
    destruct (reduction_monitor s e) as [s1|] eqn:Hstep; [|done].
    destruct (IH _ _ Hrun) as (H1 & H2 & H3).
    assert ((∀ p, e ≠ Call (Nib_save p)) ∧ (∀ p, e ≠ Call (Save_trk p))
            ∧ (s = Resampled ∨ e = Done Resample_nifti → s1 = Resampled))
      as (Hn & Ht & Hs).
    { destruct e as [| |op|op]; try destruct op; cbn in Hstep; simplify_eq;
        repeat split; try done; by intros [?|?]. }
    split; [intros p; apply not_elem_of_cons; auto|].
    split; [intros p; apply not_elem_of_cons; auto|].
    intros [?|[?|?]%elem_of_cons]; auto.
Qed.

Lemma trk_sound tr :
  ∀ s s', run trk_monitor s tr = Some s' →
  (s = true ∨ ∃ p, Call (Save_trk p) ∈ tr) → s' = true.
Proof.
  induction tr as [|e tr IH]; intros s s' Hrun Hin.
  - cbn in Hrun. simplify_eq.
    destruct Hin as [?|[p H]]; [done|]. by apply elem_of_nil in H.
  - cbn [run] in Hrun.
    destruct (trk_monitor s e) as [s1|] eqn:Hstep; [|done].
    apply (IH _ _ Hrun).
    destruct Hin as [->|[p [?|?]%elem_of_cons]]; [| |eauto].
    + left. destruct e as [| |op|]; try destruct op; cbn in Hstep; by simplify_eq.
    + left. subst e. cbn in Hstep. by simplify_eq.
Qed.

Lemma exists_sound tr :
  ∀ s s', run exists_monitor s tr = Some s' →
  (∀ p, Call (Streamlines_load p) ∉ tr)
  ∧ (s = true ∨ (∃ q, Done (Nib_save q) ∈ tr) → s' = true).
Proof.
  induction tr as [|e tr IH]; intros s s' Hrun.
  - cbn in Hrun. simplify_eq. split; [intros p; apply not_elem_of_nil|].
    intros [?|[q H]]; [done|]. by apply elem_of_nil in H.
  - cbn [run] in Hrun.
    destruct (exists_monitor s e) as [s1|] eqn:Hstep; [|done].
    destruct (IH _ _ Hrun) as (H1 & H2).
    assert ((∀ p, e ≠ Call (Streamlines_load p))
            ∧ (s = true ∨ (∃ q, e = Done (Nib_save q)) → s1 = true))
      as (Hn & Hs).
    { destruct e as [| |op|op]; try destruct op; cbn in Hstep; simplify_eq;
        split; try done; try (by intros [?|[? ?]]). }
    split; [intros p; apply not_elem_of_cons; auto|].
    intros [?|[q [?|?]%elem_of_cons]]; [auto| |eauto].
    subst e. apply H2. left. apply Hs. eauto.
Qed.

Lemma completion_sound tr :
  ∀ s, run completion_monitor Unsaved tr = Some s → reached s tr.
Proof.
  induction tr as [|e tr IH] using rev_ind; intros s Hrun.
  - cbn in Hrun. simplify_eq. apply not_elem_of_nil.
  - rewrite run_app in Hrun.
    destruct (run completion_monitor Unsaved tr) as [s1|]; [|done].
    specialize (IH _ eq_refl). cbn [run] in Hrun.
    destruct (completion_monitor s1 e) as [s2|] eqn:Hstep; [|done].
    simplify_eq.
    assert (Hline : ∀ line, (line =? banner)%string = false →
                            Print line ≠ Print banner).
    { intros line Hne [= ->]. by rewrite String.eqb_refl in Hne. }
    destruct s1; cbn [reached] in IH;
      destruct e as [line|[|n]|op|op]; try destruct op; cbn in Hstep;
      try destruct (line =? banner)%string eqn:Hb;
      simplify_eq; cbn [reached];
      rewrite ?not_elem_of_app, ?elem_of_app, ?list_elem_of_singleton,
        ?last_snoc;
      try apply String.eqb_eq in Hb; subst;
      intuition (auto; try discriminate; try congruence).
  all: by eapply Hline.
Qed.

Lemma seq_returned {A B} tr (a : A) (k : A → prog B) :
  seq_ (tr, Returned a) k = (tr ++ (k a).1, (k a).2).
Proof. reflexivity. Qed.

(** X15.  When the GPU libraries cannot be imported, a run asked to use the GPU
    goes on as the run that was asked not to: after the first lines the two
    traces are the same, and so are the results. *)
Theorem gpu_fallback {volume : Type} (f : build_new_affine_def)
    (w : collaborators volume) (old_nifti_path old_trk_path : string)
    (new_voxel_size : Transform.voxel_size) (new_dim : list Z)
    (output_prefix : string) (n_jobs : Z) (patch_center : option (list R))
    (reduction_method : option string) (interp_method : string)
    (step_size max_output_gb : R) :
  import_gpu_libraries w = Raised ImportError →
  let gpu := process_and_save_importing f w old_nifti_path old_trk_path
               new_voxel_size new_dim output_prefix n_jobs patch_center
               reduction_method true interp_method step_size max_output_gb in
  let cpu := process_and_save_importing f w old_nifti_path old_trk_path
               new_voxel_size new_dim output_prefix n_jobs patch_center
               reduction_method false interp_method step_size max_output_gb in
  gpu.2 = cpu.2
  ∧ ∃ tr,
      cpu.1 = Print "Using CPU processing" :: tr
      ∧ gpu.1 = Call Import_gpu_libraries
                :: Print "Could not import GPU libraries, falling back to CPU"
                :: tr.
Proof.
  intros Himport. cbn zeta. unfold process_and_save_importing.
  match goal with
  | |- context [seq_ (choose_array_library w true) ?k] => set (K := k)
  end.
  clearbody K.
  assert (Hgpu : choose_array_library w true
                 = ([Call Import_gpu_libraries;
                     Print "Could not import GPU libraries, falling back to CPU"],
                    Returned false)).
  { unfold choose_array_library, except_ImportError. by rewrite Himport. }
  assert (Hcpu : choose_array_library w false
                 = ([Print "Using CPU processing"], Returned false))
    by reflexivity.
  rewrite Hgpu, Hcpu, !seq_returned. cbn [fst snd app]. eauto.
Qed.

(** X15 where the GPU libraries are missing. *)
Lemma gpu_fallback_witness :
  (run_accepting nothing_loads).2
  = (process_and_save_importing accepting_use_gpu nothing_loads "in.nii" "in.trk"
       (Transform.Scalar 1) [116; 140; 96]%Z "resampled" 8 None None false
       "hermite" 1 64).2.
Proof.
  exact (proj1 (gpu_fallback accepting_use_gpu nothing_loads "in.nii" "in.trk"
                  (Transform.Scalar 1) [116; 140; 96]%Z "resampled" 8 None None
                  "hermite" 1 64 eq_refl)).
Defined.

Section Runs.
Context {volume : Type}.
Variables (f : build_new_affine_def) (w : collaborators volume).
Variables (old_nifti_path old_trk_path : string)
  (new_voxel_size : Transform.voxel_size) (new_dim : list Z)
  (output_prefix : string) (n_jobs : Z) (patch_center : option (list R))
  (reduction_method : option string) (use_gpu : bool)
  (interp_method : string) (step_size : R) (max_output_gb : R).

Lemma order_run :
  wp order_monitor
    (process_and_save_importing f w old_nifti_path old_trk_path new_voxel_size
       new_dim output_prefix n_jobs patch_center reduction_method use_gpu
       interp_method step_size max_output_gb)
    0%nat (fun _ _ => True) (fun _ _ => True).
Proof.
  unfold process_and_save_importing.
  eapply wp_seq_with with (I := fun _ s' => s' = 0%nat ∨ s' = 1%nat).
  { unfold choose_array_library, except_ImportError.
    destruct use_gpu; [destruct (import_gpu_libraries w) as [[]|[]]|];
      unfold wp; cbn; auto. }
  intros use_gpu' ? [->| ->]; wp_go; exact I.
Qed.

(** X16.  In every run of [process_and_save] the calls come in one order: the
    import of the GPU libraries, [nib.load], [build_new_affine],
    [resample_nifti], [nib.save], [os.path.exists], [os.remove],
    [nib.streamlines.load], [transform_and_densify_streamlines], [save_trk];
    of two calls of a run the later one is of a later stage, so that none is
    made twice. *)
Theorem calls_in_order pre a mid b post :
  (process_and_save_importing f w old_nifti_path old_trk_path new_voxel_size
     new_dim output_prefix n_jobs patch_center reduction_method use_gpu
     interp_method step_size max_output_gb).1
  = pre ++ Call a :: mid ++ Call b :: post →
  (stage a < stage b)%nat.
Proof.
  pose proof order_run as H.
  set (m := process_and_save_importing _ _ _ _ _ _ _ _ _ _ _ _ _ _) in *.
  clearbody m. intros Htr.
  apply wp_run in H as (s & Hrun & _).
  destruct (order_sound _ _ _ Hrun) as (_ & _ & Hord). by eapply Hord.
Qed.

Lemma trk_run :
  wp trk_monitor
    (process_and_save_importing f w old_nifti_path old_trk_path new_voxel_size
       new_dim output_prefix n_jobs patch_center reduction_method use_gpu
       interp_method step_size max_output_gb)
    false
    (fun _ s => s = true →
       ∃ trk, streamlines_load w old_trk_path = Returned trk
              ∧ tractogram_streamlines trk ≠ []
              ∧ total_points (tractogram_streamlines trk) ≠ 0%nat)
    (fun _ s => s = true →
       ∃ trk, streamlines_load w old_trk_path = Returned trk
              ∧ tractogram_streamlines trk ≠ []
              ∧ total_points (tractogram_streamlines trk) ≠ 0%nat).
Proof.
  unfold process_and_save_importing.
  eapply wp_seq_with with (I := fun _ s' => s' = false).
  { apply wp_choose_array_library; auto. discriminate. }
  intros use_gpu' ? ->.
  wp_go; try discriminate.
  all: intros _;
    match goal with
    | H : streamlines_load _ _ = Returned ?t |- _ => exists t; split; [exact H|]
    end;
    (split; [|by apply Nat.eqb_neq]);
    match goal with
    | H : (length ?l =? 0)%nat = false |- ?l ≠ [] =>
        intros Hnil; rewrite Hnil in H; discriminate H
    end.
Qed.

(** X19.  The streamline file is written only when the tractogram that
    was loaded has a streamline and a point: a run that calls [save_trk] has
    loaded a tractogram with at least one streamline and at least one
    point (the statistics printed before the call divide by both
    counts). *)
Theorem trk_saved_needs_points p :
  Call (Save_trk p)
  ∈ (process_and_save_importing f w old_nifti_path old_trk_path new_voxel_size
       new_dim output_prefix n_jobs patch_center reduction_method use_gpu
       interp_method step_size max_output_gb).1 →
  ∃ trk, streamlines_load w old_trk_path = Returned trk
         ∧ tractogram_streamlines trk ≠ []
         ∧ total_points (tractogram_streamlines trk) ≠ 0%nat.
Proof.
  pose proof trk_run as H.
  set (m := process_and_save_importing _ _ _ _ _ _ _ _ _ _ _ _ _ _) in *.
  clearbody m. intros Hin.
  apply wp_run in H as (s & Hrun & Hpost).
  assert (s = true) as -> by (eapply trk_sound; eauto).
  destruct m.2; by apply Hpost.
Qed.

Lemma completion_run :
  wp completion_monitor
    (process_and_save_importing f w old_nifti_path old_trk_path new_voxel_size
       new_dim output_prefix n_jobs patch_center reduction_method use_gpu
       interp_method step_size max_output_gb)
    Unsaved
    (fun _ s => s = Zero_reported (output_prefix +:+ ".nii.gz")
                ∨ s = Completed (output_prefix +:+ ".nii.gz")
                        (output_prefix +:+ ".trk"))
    (fun _ s => ∀ q p, s ≠ Completed q p).
Proof.
  unfold process_and_save_importing.
  eapply wp_seq_with with (I := fun _ s' => s' = Unsaved).
  { unfold choose_array_library, except_ImportError.
    destruct use_gpu; [destruct (import_gpu_libraries w) as [[]|[]]|];
      unfold wp; cbn; done. }
  intros use_gpu' ? ->.
  wp_go; try done; auto.
Qed.

(** X20.  The banner [Process completed successfully] is printed only by a run
    that returns, as the last thing it does, and after both the volume and
    the streamline file have been written under the output prefix. *)
Theorem completed_means_saved :
  let run := process_and_save_importing f w old_nifti_path old_trk_path
               new_voxel_size new_dim output_prefix n_jobs patch_center
               reduction_method use_gpu interp_method step_size max_output_gb in
  Print banner ∈ run.1 →
  run.2 = Returned tt
  ∧ last run.1 = Some (Print banner)
  ∧ Done (Nib_save (output_prefix +:+ ".nii.gz")) ∈ run.1
  ∧ Done (Save_trk (output_prefix +:+ ".trk")) ∈ run.1.
Proof.
  cbn zeta. pose proof completion_run as H.
  set (m := process_and_save_importing _ _ _ _ _ _ _ _ _ _ _ _ _ _) in *.
  clearbody m. intros Hin.
  apply wp_run in H as (s & Hrun & Hpost).
  apply completion_sound in Hrun.
  destruct s as [|q|q|q p|q p]; cbn [reached] in Hrun;
    try (by destruct_and?).
  destruct m.2 as [[]|e]; [|by destruct (Hpost q p)].
  destruct Hpost as [?|[= -> ->]]; [done|].
  by destruct_and?.
Qed.

(** X21.  A run that returns has written the volume, and has either reported
    zero streamlines or written the streamline file and printed the banner
    last. *)
Theorem returned_means_volume_saved :
  let run := process_and_save_importing f w old_nifti_path old_trk_path
               new_voxel_size new_dim output_prefix n_jobs patch_center
               reduction_method use_gpu interp_method step_size max_output_gb in
  run.2 = Returned tt →
  Done (Nib_save (output_prefix +:+ ".nii.gz")) ∈ run.1
  ∧ (Print_processed 0 ∈ run.1
     ∨ Done (Save_trk (output_prefix +:+ ".trk")) ∈ run.1
       ∧ last run.1 = Some (Print banner)).
Proof.
  cbn zeta. pose proof completion_run as H.
  set (m := process_and_save_importing _ _ _ _ _ _ _ _ _ _ _ _ _ _) in *.
  clearbody m. intros Hret.
  apply wp_run in H as (s & Hrun & Hpost).
  apply completion_sound in Hrun. rewrite Hret in Hpost.
  destruct Hpost as [-> | ->]; cbn [reached] in Hrun; destruct_and?; auto.
Qed.

Lemma exists_run :
  (∀ img A d c j g m v p,
     resample_nifti w img A d c j g m = Returned (v, p) → p = None) →
  wp exists_monitor
    (process_and_save_importing f w old_nifti_path old_trk_path new_voxel_size
       new_dim output_prefix n_jobs patch_center reduction_method use_gpu
       interp_method step_size max_output_gb)
    false (fun _ _ => False)
    (fun e s => s = true → ∃ msg, e = TypeError msg).
Proof.
  intros Hnone.
  unfold process_and_save_importing.
  eapply wp_seq_with with (I := fun _ s' => s' = false).
  { apply wp_choose_array_library; auto. discriminate. }
  intros use_gpu' ? ->.
  wp_go; try discriminate.
  all: match goal with
       | H : resample_nifti _ _ _ _ _ _ _ _ = Returned ?a |- _ =>
           destruct a as [v p];
           pose proof (Hnone _ _ _ _ _ _ _ _ _ H); subst p
       end.
  all: match goal with
       | H : _ = Returned _ |- _ => by cbn [snd] in H
       | H : _ = Raised ?e |- _ => cbn [snd] in H; injection H as <-; eauto
       end.
Qed.

(** X18.  When the resampler hands back no scratch path ([None]), the test
    [os.path.exists(tmp_mmap)] raises: no run returns, a run that has saved
    the volume ends with a [TypeError], and the streamlines are never
    loaded. *)
Theorem missing_scratch_path :
  (∀ img A d c j g m v p,
     resample_nifti w img A d c j g m = Returned (v, p) → p = None) →
  let run := process_and_save_importing f w old_nifti_path old_trk_path
               new_voxel_size new_dim output_prefix n_jobs patch_center
               reduction_method use_gpu interp_method step_size max_output_gb in
  (∃ e, run.2 = Raised e)
  ∧ (∀ q, Done (Nib_save q) ∈ run.1 → ∃ msg, run.2 = Raised (TypeError msg))
  ∧ ∀ p, Call (Streamlines_load p) ∉ run.1.
Proof.
  intros Hnone. cbn zeta. pose proof (exists_run Hnone) as H.
  set (m := process_and_save_importing _ _ _ _ _ _ _ _ _ _ _ _ _ _) in *.
  clearbody m.
  apply wp_run in H as (s & Hrun & Hpost).
  destruct (exists_sound _ _ _ Hrun) as [Hload Hsaved].
  destruct m.2 as [[]|e]; [done|].
  split; [eauto|]. split; [|done].
  intros q Hq. destruct Hpost as [msg ->]; eauto.
Qed.
End Runs.

Section Reduction.
Context {volume : Type}.
Variables (f : build_new_affine_def) (w : collaborators volume).
Variables (old_nifti_path old_trk_path : string)
  (new_voxel_size : Transform.voxel_size) (new_dim : list Z)
  (output_prefix : string) (n_jobs : Z) (patch_center : option (list R))
  (method : string) (use_gpu : bool)
  (interp_method : string) (step_size : R) (max_output_gb : R).

Lemma reduction_run :
  method ≠ "" → method ≠ "mip" → method ≠ "mean" →
  wp reduction_monitor
    (process_and_save_importing f w old_nifti_path old_trk_path new_voxel_size
       new_dim output_prefix n_jobs patch_center (Some method) use_gpu
       interp_method step_size max_output_gb)
    Not_resampled (fun _ _ => False)
    (fun e s => s = Resampled → e = ValueError "Unsupported reduction method").
Proof.
  intros H0 H1 H2.
  apply String.eqb_neq in H0, H1, H2.
  unfold process_and_save_importing. cbv iota. rewrite H0, H1, H2.
  eapply wp_seq_with with (I := fun _ s' => s' = Not_resampled).
  { apply wp_choose_array_library; auto. discriminate. }
  intros use_gpu' ? ->.
  wp_go; try discriminate; done.
Qed.

(** X17.  A reduction method other than [mip] and [mean] is found out only after
    the resampling: the run ends with an exception, which is the
    [ValueError] of the reduction once the resampler has returned, and it
    writes neither the volume nor the streamline file. *)
Theorem unsupported_reduction :
  method ≠ "" → method ≠ "mip" → method ≠ "mean" →
  let run := process_and_save_importing f w old_nifti_path old_trk_path
               new_voxel_size new_dim output_prefix n_jobs patch_center
               (Some method) use_gpu interp_method step_size max_output_gb in
  (∃ e, run.2 = Raised e)
  ∧ (Done Resample_nifti ∈ run.1 →
     run.2 = Raised (ValueError "Unsupported reduction method"))
  ∧ (∀ p, Call (Nib_save p) ∉ run.1)
  ∧ (∀ p, Call (Save_trk p) ∉ run.1).
Proof.
  intros H0 H1 H2. cbn zeta. pose proof (reduction_run H0 H1 H2) as H.
  set (m := process_and_save_importing _ _ _ _ _ _ _ _ _ _ _ _ _ _) in *.
  clearbody m.
  apply wp_run in H as (s & Hrun & Hpost).
  destruct (reduction_sound _ _ _ Hrun) as (Hnii & Htrk & Hres).
  destruct m.2 as [[]|e]; [done|].
  split; [eauto|]. split; [|done].
  intros Hin. f_equal. apply Hpost, Hres. by right.
Qed.
End Reduction.

(** X16 at the loading of the volume and the call of [build_new_affine]. *)
Lemma calls_in_order_witness :
  (run_accepting everything_works).1
  = take 4 (run_accepting everything_works).1
    ++ Call (Nib_load "in.nii")
       :: take 6 (drop 5 (run_accepting everything_works).1)
       ++ Call Build_new_affine :: drop 12 (run_accepting everything_works).1
  ∧ (stage (Nib_load "in.nii") < stage Build_new_affine)%nat.
Proof.
  assert (H : (run_accepting everything_works).1
              = take 4 (run_accepting everything_works).1
                ++ Call (Nib_load "in.nii")
                   :: take 6 (drop 5 (run_accepting everything_works).1)
                   ++ Call Build_new_affine
                      :: drop 12 (run_accepting everything_works).1)
    by (vm_compute; reflexivity).
  split; [exact H|].
  exact (calls_in_order accepting_use_gpu everything_works "in.nii" "in.trk"
           (Transform.Scalar 1) [116; 140; 96]%Z "resampled" 8 None None true
           "hermite" 1 64 _ _ _ _ _ H).
Defined.

(** X19 where two streamlines are loaded and come back. *)
Lemma trk_saved_needs_points_witness :
  Call (Save_trk "resampled.trk") ∈ (run_accepting streamlines_survive).1
  ∧ ∃ trk, streamlines_load streamlines_survive "in.trk" = Returned trk
           ∧ tractogram_streamlines trk ≠ []
           ∧ total_points (tractogram_streamlines trk) ≠ 0%nat.
Proof.
  assert (H : Call (Save_trk "resampled.trk")
              ∈ (run_accepting streamlines_survive).1)
    by decide_by_computation.
  split; [exact H|].
  exact (trk_saved_needs_points accepting_use_gpu streamlines_survive "in.nii"
           "in.trk" (Transform.Scalar 1) [116; 140; 96]%Z "resampled" 8 None
           None true "hermite" 1 64 _ H).
Defined.

(** X20 where two streamlines are loaded and come back. *)
Lemma completed_means_saved_witness :
  Print banner ∈ (run_accepting streamlines_survive).1
  ∧ (run_accepting streamlines_survive).2 = Returned tt
  ∧ last (run_accepting streamlines_survive).1 = Some (Print banner)
  ∧ Done (Nib_save "resampled.nii.gz") ∈ (run_accepting streamlines_survive).1
  ∧ Done (Save_trk "resampled.trk") ∈ (run_accepting streamlines_survive).1.
Proof.
  assert (H : Print banner ∈ (run_accepting streamlines_survive).1)
    by decide_by_computation.
  split; [exact H|].
  exact (completed_means_saved accepting_use_gpu streamlines_survive "in.nii"
           "in.trk" (Transform.Scalar 1) [116; 140; 96]%Z "resampled" 8 None
           None true "hermite" 1 64 H).
Defined.

(** X21 where no streamline survives. *)
Lemma returned_means_volume_saved_witness :
  (run_accepting everything_works).2 = Returned tt
  ∧ Done (Nib_save "resampled.nii.gz") ∈ (run_accepting everything_works).1.
Proof.
  assert (H : (run_accepting everything_works).2 = Returned tt)
    by (vm_compute; reflexivity).
  split; [exact H|].
  exact (proj1 (returned_means_volume_saved accepting_use_gpu everything_works
                  "in.nii" "in.trk" (Transform.Scalar 1) [116; 140; 96]%Z
                  "resampled" 8 None None true "hermite" 1 64 H)).
Defined.

(** X18 where the resampler kept no scratch file. *)
Lemma missing_scratch_path_witness :
  ∃ e, (run_accepting no_scratch_file).2 = Raised e.
Proof.
  refine (proj1 (missing_scratch_path accepting_use_gpu no_scratch_file "in.nii"
                   "in.trk" (Transform.Scalar 1) [116; 140; 96]%Z "resampled" 8
                   None None true "hermite" 1 64 _)).
  intros img A d c j g m v p [= _ <-]. reflexivity.
Defined.

(** X17 at the reduction method [max]. *)
Lemma unsupported_reduction_witness :
  (∃ e, (run_reducing everything_works "max").2 = Raised e)
  ∧ (Done Resample_nifti ∈ (run_reducing everything_works "max").1 →
     (run_reducing everything_works "max").2
     = Raised (ValueError "Unsupported reduction method"))
  ∧ (∀ p, Call (Nib_save p) ∉ (run_reducing everything_works "max").1)
  ∧ (∀ p, Call (Save_trk p) ∉ (run_reducing everything_works "max").1).
Proof.
  apply (unsupported_reduction accepting_use_gpu everything_works "in.nii"
           "in.trk" (Transform.Scalar 1) [116; 140; 96]%Z "resampled" 8 None
           "max" true "hermite" 1 64); discriminate.
Defined.
End MainExtras.

(** ** The comparison script *)

Module ComparisonProofs.
Import CompareInterpolation DriverSpec DriverProofs CompareMetrics Comparison
  ComparisonSpec.

Section Proofs.
Context {streamline diagnostic : Type}.
Variable densify :
  gmap string string → streamline → R → bool → string → R →
  list diagnostic * result streamline.
Variable w : collaborators streamline.

Abbreviation process := (process streamline diagnostic).
Abbreviation item := (item streamline diagnostic).
Abbreviation prog := (prog (streamline := streamline) (diagnostic := diagnostic)).

Lemma ends_bind {A B} (m : prog A) (k : A → prog B) p Q :
  ends_with m p (fun p' r => match r with
                      | Returned a => ends_with (k a) p' Q
                      | Raised e => Q p' (Raised e)
                      end) →
  ends_with (bind m k) p Q.
Proof. unfold ends_with, bind. cbv zeta. by destruct (m p).2. Qed.

Lemma ends_ret {A} (a : A) (p : process) Q : Q p (Returned a) → ends_with (ret a) p Q.
Proof. done. Qed.

Lemma ends_raise {A} e (p : process) (Q : process → result A → Prop) :
  Q p (Raised e) → ends_with (raise e) p Q.
Proof. done. Qed.

Lemma ends_say (i : item) (p : process) Q :
  Q (Process (os_environ p) (written p ++ [i])) (Returned tt) → ends_with (say i) p Q.
Proof. done. Qed.

Lemma ends_say_all (l : list item) (p : process) Q :
  Q (Process (os_environ p) (written p ++ l)) (Returned tt) → ends_with (say_all l) p Q.
Proof. done. Qed.

Lemma ends_call_returned {A} op (a : A) (p : process) Q :
  Q (Process (os_environ p) (written p ++ [Calling op; Back_from op]))
    (Returned a) →
  ends_with (call op (Returned a)) p Q.
Proof. done. Qed.

Lemma ends_call_raised {A} op e (p : process) (Q : process → result A → Prop) :
  Q (Process (os_environ p) (written p ++ [Calling op])) (Raised e) →
  ends_with (call op (Raised e)) p Q.
Proof. done. Qed.

Lemma ends_driver streamlines step method voxel use_gpu (p : process) Q :
  (∀ r, r = process_streamlines_with_method densify streamlines step method
              voxel use_gpu (State (os_environ p) []) →
        Q (Process (environ r.1) (written p ++ map From_driver (stdout r.1)))
          (Returned r.2)) →
  ends_with (driver densify streamlines step method voxel use_gpu) p Q.
Proof. intros H. by apply H. Qed.

Lemma driver_log_app (l1 l2 : list item) :
  driver_log (l1 ++ l2) = driver_log l1 ++ driver_log l2.
Proof. apply omap_app. Qed.

Lemma driver_log_from_driver (l : list (event streamline diagnostic)) :
  driver_log (map From_driver l) = l.
Proof. induction l as [|e l IH]; [done|]. cbn [map]. unfold driver_log in *. cbn [omap list_omap]. by rewrite IH. Qed.

Lemma driver_log_from_compare_metrics (l : list line) :
  driver_log (map (@From_compare_metrics streamline diagnostic) l) = [].
Proof. induction l as [|e l IH]; [done|]. exact IH. Qed.

Lemma successes_nil_of_fails method env step voxel use_gpu idx
    (l : list streamline) :
  method_fails densify method →
  successes densify (expected_calls env step method voxel use_gpu idx l) = [].
Proof.
  intros Hf. unfold expected_calls. revert idx.
  induction l as [|s l IH]; intros idx; [done|].
  cbn [length seq zip_with]. rewrite successes_cons, IH.
  unfold outcome, call_at. cbn.
  by destruct (Hf (<["DEBUG_TANGENTS" := flag idx]> env) s (step * voxel)
                 use_gpu voxel) as [e ->].
Qed.

End Proofs.

Ltac run_step :=
  lazymatch goal with
  | |- ends_with (bind _ _) _ _ => apply ends_bind
  | |- ends_with (ret _) _ _ => apply ends_ret
  | |- ends_with (raise _) _ _ => apply ends_raise
  | |- ends_with (say _) _ _ => apply ends_say
  | |- ends_with (say_all _) _ _ => apply ends_say_all
  | |- ends_with (call _ (Returned _)) _ _ => apply ends_call_returned
  | |- ends_with (call _ (Raised _)) _ _ => apply ends_call_raised
  | |- ends_with (call _ ?r) _ _ => destruct r eqn:?
  | |- ends_with (driver _ _ _ _ _ _) _ _ =>
      let r := fresh "r" in let Hr := fresh "Hr" in
      apply ends_driver; intros r Hr; cbn [os_environ written] in Hr
  | |- ends_with (local _) _ _ => unfold local
  | |- ends_with (calculate_metrics_for_both_methods _ _ _) _ _ =>
      unfold calculate_metrics_for_both_methods
  | |- ends_with (torsion_and_curvature_summary _ _) _ _ =>
      unfold torsion_and_curvature_summary
  | |- ends_with (report_on _ _ _) _ _ => fail
  | |- ends_with (if ?b then _ else _) _ _ => destruct b eqn:?
  | |- ends_with (match ?x with _ => _ end) _ _ => destruct x eqn:?
  end;
  cbn [os_environ written fst snd].

Ltac run_steps := repeat run_step.


Section Theorems.
Context {streamline diagnostic : Type}.
Variable densify :
  gmap string string → streamline → R → bool → string → R →
  list diagnostic * result streamline.
Variable w : collaborators streamline.

Abbreviation process := (process streamline diagnostic).
Abbreviation item := (item streamline diagnostic).
Abbreviation prog := (prog (streamline := streamline) (diagnostic := diagnostic)).

Lemma ends_mono {A} (m : prog A) p (Q Q' : process → result A → Prop) :
  ends_with m p Q → (∀ p' r, Q p' r → Q' p' r) → ends_with m p Q'.
Proof. unfold ends_with. auto. Qed.

Lemma driver_calls streamlines step method voxel use_gpu env r :
  r = process_streamlines_with_method densify streamlines step method voxel
        use_gpu (State env []) →
  calls (stdout r.1) = expected_calls env step method voxel use_gpu 0 streamlines
  ∧ r.2 = successes densify
            (expected_calls env step method voxel use_gpu 0 streamlines).
Proof.
  intros ->.
  destruct (driver_spec densify streamlines step method voxel use_gpu
              (State env [])) as (H1 & H2 & _).
  split; [exact H1|exact H2].
Qed.

Lemma calling_not_from_driver op (l : list (event streamline diagnostic)) :
  Calling op ∉ map (@From_driver streamline diagnostic) l.
Proof.
  induction l as [|e l IH]; [apply not_elem_of_nil|].
  cbn [map]. apply not_elem_of_cons. by split.
Qed.

Lemma not_calling_app op (l1 l2 : list item) :
  Calling op ∉ l1 → Calling op ∉ l2 → Calling op ∉ l1 ++ l2.
Proof. intros. by apply not_elem_of_app. Qed.

Lemma not_calling_cons op i (l : list item) :
  i ≠ Calling op → Calling op ∉ l → Calling op ∉ i :: l.
Proof. intros. apply not_elem_of_cons. split; [congruence|done]. Qed.

(** *** The report *)

Lemma report_extends linear_streams hermite_streams (p : process) :
  ends_with (report_on w linear_streams hermite_streams) p
    (fun p' _ => ∃ more, written p' = written p ++ more ∧ driver_log more = []).
Proof.
  unfold report_on. run_steps.
  all: rewrite <- ?app_assoc; eexists; split; [reflexivity|].
  all: rewrite ?driver_log_app, ?driver_log_from_compare_metrics; reflexivity.
Qed.

Lemma report_error linear_streams hermite_streams (p : process) :
  linear_streams = [] ∨ hermite_streams = [] →
  report_on w linear_streams hermite_streams p
  = (Process (os_environ p) (written p ++ [Say error_line]), Returned tt).
Proof.
  intros H. unfold report_on.
  replace (bool_decide (linear_streams = []) || bool_decide (hermite_streams = []))
    with true; [reflexivity|].
  symmetry. apply orb_true_iff.
  destruct H; [left|right]; by apply bool_decide_eq_true.
Qed.

(** *** The two runs of the driver *)

Lemma comparison_calls trk_file step voxel_size num use_gpu env d :
  nib_streamlines_load w trk_file = Returned d →
  (3 ≤ length (voxel_sizes_or_default d))%nat →
  ends_with (compare_interpolations densify w trk_file step voxel_size num use_gpu)
    (Process env [])
    (fun p' _ =>
       (∃ env',
          calls (driver_log (written p'))
          = expected_calls env step "linear"
              (default (mean (voxel_sizes_or_default d)) voxel_size) use_gpu 0
              (selection num (trk_streamlines d))
            ++ expected_calls env' step "hermite"
                 (default (mean (voxel_sizes_or_default d)) voxel_size) use_gpu 0
                 (selection num (trk_streamlines d)))
       ∧ ∀ n, num = Some n → (n < Z.of_nat (length (trk_streamlines d)))%Z →
              Limiting_to n ∈ written p').
Proof.
  intros Hload Hlen. unfold compare_interpolations. rewrite Hload.
  run_steps; [apply Nat.ltb_lt in Heqb; lia|..].
  all: eapply ends_mono; [apply report_extends|];
    cbn [written]; intros p' _ (more & -> & Hmore).
  all: (split;
        [exists (environ r.1);
         rewrite ?driver_log_app, ?driver_log_from_driver, Hmore;
         cbn [driver_log omap list_omap app]; rewrite ?app_nil_r;
         rewrite calls_app;
         destruct (driver_calls _ _ _ _ _ _ _ Hr) as [-> _];
         destruct (driver_calls _ _ _ _ _ _ _ Hr0) as [-> _];
         cbn [selection]; rewrite ?Heqb0; reflexivity
        |]).
  all: intros n [= <-] Hn; try (apply Z.ltb_ge in Heqb0; lia).
  rewrite !elem_of_app. do 3 left. right. apply list_elem_of_singleton.
  reflexivity.
Qed.

(** X22.  A run of [compare_interpolations] that loads the tractogram, with
    at least three voxel sizes in its header, has the densifier called for
    each selected streamline twice, in input order with its index: first
    for all of them with the method [linear], then for all of them with
    the method [hermite], both times with the step size multiplied by the
    voxel size, which is the one given or else the mean of the voxel sizes
    of the header; there is no other call of the densifier. *)
Theorem both_methods_same_work trk_file step voxel_size num use_gpu env d :
  nib_streamlines_load w trk_file = Returned d →
  (3 ≤ length (voxel_sizes_or_default d))%nat →
  let voxel := default (mean (voxel_sizes_or_default d)) voxel_size in
  let selected := selection num (trk_streamlines d) in
  let p := (compare_interpolations densify w trk_file step voxel_size num
              use_gpu (Process env [])).1 in
  ∃ env',
    calls (driver_log (written p))
    = expected_calls env step "linear" voxel use_gpu 0 selected
      ++ expected_calls env' step "hermite" voxel use_gpu 0 selected.
Proof.
  intros Hload Hlen. cbn zeta.
  by destruct (comparison_calls trk_file step voxel_size num use_gpu env d
                 Hload Hlen) as [H _].
Qed.

(** X23.  A negative [num_streamlines] is not refused: with [-k] the
    script announces that it limits to [-k] streamlines and processes, with
    each method, all streamlines but the last [k]. *)
Theorem negative_count_drops_from_end trk_file step voxel_size (k : nat)
    use_gpu env d :
  nib_streamlines_load w trk_file = Returned d →
  (3 ≤ length (voxel_sizes_or_default d))%nat →
  (0 < k)%nat →
  let kept := take (length (trk_streamlines d) - k) (trk_streamlines d) in
  let p := (compare_interpolations densify w trk_file step voxel_size
              (Some (- Z.of_nat k)%Z) use_gpu (Process env [])).1 in
  Limiting_to (- Z.of_nat k) ∈ written p
  ∧ map call_stream (calls (driver_log (written p))) = kept ++ kept.
Proof.
  intros Hload Hlen Hk. cbn zeta.
  destruct (comparison_calls trk_file step voxel_size (Some (- Z.of_nat k)%Z)
              use_gpu env d Hload Hlen) as [[env' Hcalls] Hlim].
  split; [apply Hlim; [done|lia]|].
  rewrite Hcalls, map_app, !expected_calls_stream.
  assert (Hsel : selection (Some (- Z.of_nat k)%Z) (trk_streamlines d)
                 = take (length (trk_streamlines d) - k) (trk_streamlines d)).
  { unfold selection, slice_to.
    destruct (Z.ltb_spec (- Z.of_nat k) (Z.of_nat (length (trk_streamlines d))));
      [|lia].
    destruct (Z.ltb_spec (- Z.of_nat k) 0); [|lia].
    f_equal. lia. }
  by rewrite Hsel.
Qed.

(** X24.  When the header of the tractogram holds fewer than three voxel
    sizes, [compare_interpolations] ends with an [IndexError] at the line
    that prints them, before any streamline is processed. *)
Theorem short_header_raises trk_file step voxel_size num use_gpu env d :
  nib_streamlines_load w trk_file = Returned d →
  (length (voxel_sizes_or_default d) < 3)%nat →
  let run := compare_interpolations densify w trk_file step voxel_size num
               use_gpu (Process env []) in
  run.2 = Raised IndexError ∧ driver_log (written run.1) = [].
Proof.
  intros Hload Hlen. cbn zeta. unfold compare_interpolations. rewrite Hload.
  match goal with
  | |- context [(?m (Process env [])).2] =>
      change (ends_with m (Process env [])
                (fun p' r => r = Raised IndexError ∧ driver_log (written p') = []))
  end.
  run_steps; try (apply Nat.ltb_ge in Heqb; lia).
  done.
Qed.

Lemma driver_nothing streamlines step method voxel use_gpu env r :
  r = process_streamlines_with_method densify streamlines step method voxel
        use_gpu (State env []) →
  streamlines = [] ∨ method_fails densify method →
  r.2 = [].
Proof.
  intros Hr H. destruct (driver_calls _ _ _ _ _ _ _ Hr) as [_ ->].
  destruct H as [->|H]; [done|]. by apply successes_nil_of_fails.
Qed.

(** X25.  When no streamline is selected, or the densifier raises on every
    call for one of the two methods, [compare_interpolations] prints the
    error line last and returns normally; it computes no metrics and draws
    no plot. *)
Theorem nothing_to_compare trk_file step voxel_size num use_gpu env d :
  nib_streamlines_load w trk_file = Returned d →
  (3 ≤ length (voxel_sizes_or_default d))%nat →
  selection num (trk_streamlines d) = []
  ∨ method_fails densify "linear" ∨ method_fails densify "hermite" →
  let run := compare_interpolations densify w trk_file step voxel_size num
               use_gpu (Process env []) in
  run.2 = Returned tt
  ∧ last (written run.1) = Some (Say error_line)
  ∧ (Calling Calculate_metrics ∉ written run.1)
  ∧ (Calling Visualize ∉ written run.1)
  ∧ (Calling Plot ∉ written run.1).
Proof.
  intros Hload Hlen Hnothing. cbn zeta. unfold compare_interpolations.
  rewrite Hload.
  match goal with
  | |- context [(?m (Process env [])).2] =>
      change (ends_with m (Process env [])
                (fun p' r =>
                   r = Returned tt
                   ∧ last (written p') = Some (Say error_line)
                   ∧ (Calling Calculate_metrics ∉ written p')
                   ∧ (Calling Visualize ∉ written p')
                   ∧ (Calling Plot ∉ written p')))
  end.
  run_steps; [apply Nat.ltb_lt in Heqb; lia|..].
  all: rewrite ?Heqo in Hnothing; cbn [selection] in Hnothing;
    rewrite ?Heqb0 in Hnothing.
  all: unfold ends_with; rewrite report_error;
    [|destruct Hnothing as [H|[H|H]];
      [left; eapply driver_nothing; eauto
      |left; eapply driver_nothing; eauto
      |right; eapply driver_nothing; eauto]].
  all: cbn [fst snd written]; rewrite last_snoc.
  all: split; [done|]; split; [done|].
  all: repeat split;
    repeat first
      [ apply not_elem_of_nil
      | apply calling_not_from_driver
      | apply not_calling_app
      | apply not_calling_cons; [discriminate|] ].
Qed.

(** X26.  The end of [compare_interpolations] reads two local variables
    that are bound on some paths only.  When the linear metrics hold both
    the mean curvature and the mean torsion, the summary ends with an
    [UnboundLocalError] if the Hermite metrics lack the mean curvature, and
    also if they lack the mean torsion and the curvature differs by more
    than 5 percent either way; in every other case it returns. *)
Theorem summary_unbound_local (linear_metrics hermite_metrics : metrics)
    (p : process) :
  let c := percent (get hermite_metrics "mean_curvature"
                    - get linear_metrics "mean_curvature")
             (get linear_metrics "mean_curvature") in
  (torsion_and_curvature_summary linear_metrics hermite_metrics p).2
  = if has linear_metrics "mean_curvature" && has linear_metrics "mean_torsion"
       && (negb (has hermite_metrics "mean_curvature")
           || negb (has hermite_metrics "mean_torsion") && (gt c 5 || gt (-5) c))
    then Raised unbound_local
    else Returned tt.
Proof.
  cbn zeta. unfold torsion_and_curvature_summary.
  destruct (has linear_metrics "mean_curvature"),
    (has hermite_metrics "mean_curvature"),
    (has linear_metrics "mean_torsion"),
    (has hermite_metrics "mean_torsion");
    cbv [bind say ret raise local fst snd andb orb negb];
    repeat match goal with
           | |- context [gt ?x ?y] => destruct (gt x y)
           end;
    reflexivity.
Qed.

(** *** The debug option *)

Lemma loop_flag_blind n step method voxel use_gpu idx (l : list streamline)
    (st1 st0 : state streamline diagnostic) acc :
  stdout st1 = stdout st0 →
  same_but_flag (environ st1) (environ st0) →
  let r1 := loop densify n step method voxel use_gpu idx l st1 acc in
  let r0 := loop densify n step method voxel use_gpu idx l st0 acc in
  stdout r1.1 = stdout r0.1 ∧ r1.2 = r0.2
  ∧ same_but_flag (environ r1.1) (environ r0.1).
Proof.
  intros Hout Henv. cbn zeta. destruct l as [|s l]; [done|].
  cbn [loop].
  assert (Hst : CompareInterpolation.setenv "DEBUG_TANGENTS" (if (idx <? 5)%nat then "1" else "0")
                  (if (idx mod 50 =? 0)%nat then CompareInterpolation.print (Print_progress idx n) st1
                   else st1)
                = CompareInterpolation.setenv "DEBUG_TANGENTS" (if (idx <? 5)%nat then "1" else "0")
                    (if (idx mod 50 =? 0)%nat then CompareInterpolation.print (Print_progress idx n) st0
                     else st0)).
  { unfold CompareInterpolation.setenv.
    destruct (idx mod 50 =? 0)%nat; cbn [CompareInterpolation.print environ stdout];
      by rewrite Henv, Hout. }
  rewrite Hst. done.
Qed.

Section Blind.
Variable pre : list item.

Lemma blind_ret {A} (a : A) : flag_blind pre (ret a : prog A).
Proof. by intros p1 p0 H. Qed.

Lemma blind_raise {A} e : flag_blind pre (raise e : prog A).
Proof. by intros p1 p0 H. Qed.

Lemma blind_say_all (l : list item) : flag_blind pre (say_all l).
Proof.
  intros p1 p0 [Hw He]. split; [|done]. split; [|done].
  cbn. by rewrite Hw, app_assoc.
Qed.

Lemma blind_say (i : item) : flag_blind pre (say i).
Proof. apply (blind_say_all [i]). Qed.

Lemma blind_call {A} op (r : result A) : flag_blind pre (call op r : prog A).
Proof.
  intros p1 p0 [Hw He]. destruct r as [a|e]; (split; [|done]); (split; [|done]);
    cbn; by rewrite Hw, app_assoc.
Qed.

Lemma blind_bind {A B} (m : prog A) (k : A → prog B) :
  flag_blind pre m → (∀ a, flag_blind pre (k a)) → flag_blind pre (bind m k).
Proof.
  intros Hm Hk p1 p0 H. unfold bind. cbv zeta.
  destruct (Hm p1 p0 H) as [H' ->].
  destruct (m p0).2 as [a|e]; [by apply Hk|done].
Qed.

Lemma blind_driver streamlines step method voxel use_gpu :
  flag_blind pre (driver densify streamlines step method voxel use_gpu).
Proof.
  intros p1 p0 [Hw He]. unfold driver, process_streamlines_with_method.
  cbv zeta. cbn [fst snd CompareInterpolation.print environ stdout].
  destruct (loop_flag_blind (length streamlines) step method voxel use_gpu 0
              streamlines
              (CompareInterpolation.print (Print_processing (length streamlines) method voxel)
                 (State (os_environ p1) []))
              (CompareInterpolation.print (Print_processing (length streamlines) method voxel)
                 (State (os_environ p0) [])) [] eq_refl He)
    as (H1 & H2 & H3).
  cbn zeta in H1, H2, H3. rewrite H1, H2.
  split; [|done]. split; [|exact H3].
  cbn [written]. by rewrite Hw, app_assoc.
Qed.
End Blind.

Ltac blind :=
  repeat lazymatch goal with
         | |- flag_blind _ (bind _ _) => apply blind_bind; [|intros ?]
         | |- flag_blind _ (ret _) => apply blind_ret
         | |- flag_blind _ (raise _) => apply blind_raise
         | |- flag_blind _ (say _) => apply blind_say
         | |- flag_blind _ (say_all _) => apply blind_say_all
         | |- flag_blind _ (call _ _) => apply blind_call
         | |- flag_blind _ (driver _ _ _ _ _ _) => apply blind_driver
         | |- flag_blind _ (local ?x) => unfold local
         | |- flag_blind _ (if ?b then _ else _) => destruct b
         | |- flag_blind _ (match ?x with _ => _ end) => destruct x
         end.

Lemma compare_interpolations_flag_blind pre trk_file step voxel_size num use_gpu :
  flag_blind pre
    (compare_interpolations densify w trk_file step voxel_size num use_gpu).
Proof.
  unfold compare_interpolations, report_on, calculate_metrics_for_both_methods,
    torsion_and_curvature_summary.
  blind.
Qed.

(** X27.  The option [--debug_tangents] changes nothing but its own line:
    the run of [main] with the option writes the line
    [Tangent debugging enabled] and then what the run without it writes,
    the calls of the densifier with the environment they are made in
    included, and the two runs end alike. *)
Theorem debug_option_has_no_effect trk_file step voxel_size num use_gpu env :
  let on := main densify w
              (Arguments_ trk_file step voxel_size num use_gpu true)
              (Process env []) in
  let off := main densify w
               (Arguments_ trk_file step voxel_size num use_gpu false)
               (Process env []) in
  on.2 = off.2
  ∧ written on.1 = Say "Tangent debugging enabled" :: written off.1.
Proof.
  cbn zeta. unfold main.
  cbn [debug_tangents Comparison.trk_file arg_step_size arg_voxel_size
       arg_num_streamlines arg_use_gpu].
  set (k := compare_interpolations densify w trk_file step voxel_size num use_gpu).
  destruct (compare_interpolations_flag_blind [Say "Tangent debugging enabled"]
              trk_file step voxel_size num use_gpu
              (Process (<["DEBUG_TANGENTS" := "1"]> env)
                 [Say "Tangent debugging enabled"])
              (Process env []))
    as [[Hw _] Hr].
  { split; [done|]. intros v. cbn. apply insert_insert_eq. }
  fold k in Hw, Hr. split; [exact Hr|exact Hw].
Qed.
End Theorems.

(** X22 at three streamlines and a densifier that returns. *)
Lemma both_methods_same_work_witness :
  ∃ env',
    calls (driver_log (written
      (compare_interpolations constant_densifier three_streamlines "in.trk"
         (1 / 2) None None false (Process ∅ [])).1))
    = expected_calls ∅ (1 / 2) "linear" (mean [1; 1; 1]) false 0 [tt; tt; tt]
      ++ expected_calls env' (1 / 2) "hermite" (mean [1; 1; 1]) false 0
           [tt; tt; tt].
Proof.
  apply (both_methods_same_work constant_densifier three_streamlines "in.trk"
           (1 / 2) None None false ∅ (Trk_data [tt; tt; tt] (Some [1; 1; 1])));
    [reflexivity|cbn; lia].
Defined.

(** X23 at three streamlines and a count of -1. *)
Lemma negative_count_drops_from_end_witness :
  map call_stream (calls (driver_log (written
    (compare_interpolations constant_densifier three_streamlines "in.trk"
       (1 / 2) None (Some (-1)%Z) false (Process ∅ [])).1)))
  = [tt; tt] ++ [tt; tt].
Proof.
  apply (negative_count_drops_from_end constant_densifier three_streamlines
           "in.trk" (1 / 2) None 1 false ∅
           (Trk_data [tt; tt; tt] (Some [1; 1; 1])));
    [reflexivity|cbn; lia|lia].
Defined.

(** X24 at a header of two voxel sizes. *)
Lemma short_header_raises_witness :
  (compare_interpolations constant_densifier short_header "in.trk" (1 / 2) None
     None false (Process ∅ [])).2
  = Raised IndexError.
Proof.
  apply (short_header_raises constant_densifier short_header "in.trk" (1 / 2)
           None None false ∅ (Trk_data [tt; tt; tt] (Some [1; 1])));
    [reflexivity|cbn; lia].
Defined.

(** X25 at a densifier that always raises. *)
Lemma nothing_to_compare_witness :
  (compare_interpolations failing_densifier three_streamlines "in.trk" (1 / 2)
     None None false (Process ∅ [])).2
  = Returned tt.
Proof.
  apply (nothing_to_compare failing_densifier three_streamlines "in.trk" (1 / 2)
           None None false ∅ (Trk_data [tt; tt; tt] (Some [1; 1; 1])));
    [reflexivity|cbn; lia|].
  right. left. intros env stream step use_gpu voxel. eexists. reflexivity.
Defined.
End ComparisonProofs.
